(** * gosmtpmail: MIME message construction and SMTP dispatch

    A shallow embedding of [smtp_email.go] (package [gosmtpmail]) together
    with executable models of the Go standard-library routines it calls
    ([encoding/base64], [strings], [path/filepath], [mime], [mime/multipart],
    [net/textproto], [os], [net/smtp]).

    Go [string] and [[]byte] values are both finite byte sequences; they are
    represented by [string], whose characters are the 8-bit [ascii] values.
    The conversion [[]byte(s)] is therefore the identity. *)

From Stdlib Require Import String Ascii List ZArith Lia Bool Arith.
Import ListNotations.
Local Open Scope string_scope.
Set Warnings "-register-all".

(* ================================================================== *)
(** ** encoding/base64 *)

Module base64.

(** [const encodeStd] : the standard alphabet of RFC 4648. *)
Definition encodeStd : string :=
  "ABCDEFGHIJKLMNOPQRSTUVWXYZabcdefghijklmnopqrstuvwxyz0123456789+/".

(** [StdPadding] *)
Definition padChar : ascii := "="%char.

(** Value of a byte, and the byte of a value below 256. *)
Definition byte_val (c : ascii) : Z := Z.of_N (N_of_ascii c).
Definition byte_of (z : Z) : ascii := ascii_of_N (Z.to_N z).

(** [uint] arithmetic: a left shift wraps at the 64-bit word size. *)
Definition uint_shl (x n : Z) : Z := (Z.shiftl x n) mod 2 ^ 64.

(** [enc.encode[i]]; an index outside the table would panic, which the
    mask [&0x3F] at every use excludes. *)
Definition encode_at (i : Z) : ascii :=
  match String.get (Z.to_nat i) encodeStd with
  | Some c => c
  | None => zero
  end.

(** [enc.encode[val>>k&0x3F]] *)
Definition sextet (val k : Z) : ascii :=
  encode_at (Z.land (Z.shiftr val k) 63).

(** [StdEncoding.EncodeToString]: whole groups of three
    source bytes become four characters; a final group of one or two bytes is
    padded with [=]. *)
Fixpoint EncodeToString (src : string) : string :=
  match src with
  | String a (String b (String c rest)) =>
      let val := Z.lor (Z.lor (uint_shl (byte_val a) 16) (uint_shl (byte_val b) 8))
                       (byte_val c) in
      String (sextet val 18) (String (sextet val 12)
        (String (sextet val 6) (String (sextet val 0) (EncodeToString rest))))
  | String a (String b EmptyString) =>
      let val := Z.lor (uint_shl (byte_val a) 16) (uint_shl (byte_val b) 8) in
      String (sextet val 18) (String (sextet val 12)
        (String (sextet val 6) (String padChar EmptyString)))
  | String a EmptyString =>
      let val := uint_shl (byte_val a) 16 in
      String (sextet val 18) (String (sextet val 12)
        (String padChar (String padChar EmptyString)))
  | EmptyString => EmptyString
  end.

(** *** The decoder of RFC 4648, section 4

    Not part of the program: the reference decoder against which the
    encoder's output is read back. *)

Fixpoint index_of (c : ascii) (tbl : string) : option Z :=
  match tbl with
  | EmptyString => None
  | String d tbl' =>
      if Ascii.eqb c d then Some 0%Z
      else option_map Z.succ (index_of c tbl')
  end.

Definition decode_char (c : ascii) : option Z := index_of c encodeStd.

Definition quantum (i0 i1 i2 i3 : Z) : Z :=
  Z.lor (Z.lor (Z.lor (Z.shiftl i0 18) (Z.shiftl i1 12)) (Z.shiftl i2 6)) i3.

Definition octet (v k : Z) : ascii := byte_of (Z.land (Z.shiftr v k) 255).

Definition decode_full (c0 c1 c2 c3 : ascii) : option string :=
  match decode_char c0, decode_char c1, decode_char c2, decode_char c3 with
  | Some i0, Some i1, Some i2, Some i3 =>
      let v := quantum i0 i1 i2 i3 in
      Some (String (octet v 16) (String (octet v 8) (String (octet v 0) "")))
  | _, _, _, _ => None
  end.

Definition decode_last (c0 c1 c2 c3 : ascii) : option string :=
  if Ascii.eqb c3 padChar then
    if Ascii.eqb c2 padChar then
      match decode_char c0, decode_char c1 with
      | Some i0, Some i1 =>
          Some (String (octet (quantum i0 i1 0 0) 16) "")
      | _, _ => None
      end
    else
      match decode_char c0, decode_char c1, decode_char c2 with
      | Some i0, Some i1, Some i2 =>
          let v := quantum i0 i1 i2 0 in
          Some (String (octet v 16) (String (octet v 8) ""))
      | _, _, _ => None
      end
  else decode_full c0 c1 c2 c3.

Fixpoint DecodeString (s : string) : option string :=
  match s with
  | EmptyString => Some ""
  | String c0 (String c1 (String c2 (String c3 rest))) =>
      match rest with
      | EmptyString => decode_last c0 c1 c2 c3
      | _ =>
          match decode_full c0 c1 c2 c3, DecodeString rest with
          | Some front, Some back => Some (front ++ back)
          | _, _ => None
          end
      end
  | _ => None
  end.

(** Text over the alphabet and the padding character. *)
Fixpoint in_table (c : ascii) (tbl : string) : bool :=
  match tbl with
  | EmptyString => false
  | String d tbl' => Ascii.eqb c d || in_table c tbl'
  end.

Fixpoint is_base64_text (s : string) : bool :=
  match s with
  | EmptyString => true
  | String c s' => (in_table c encodeStd || Ascii.eqb c padChar) && is_base64_text s'
  end.

(** The 24-bit value of a group of three bytes when no shift wraps. *)
Definition val3 (a b c : ascii) : Z :=
  Z.lor (Z.lor (Z.shiftl (byte_val a) 16) (Z.shiftl (byte_val b) 8)) (byte_val c).

End base64.

(* ================================================================== *)
(** ** strings *)

Definition CRLF : string := String "013" (String "010" "").

(** The quotation mark. *)
Definition DQUOTE : ascii := "034"%char.

Module strings.

(** [strings.HasPrefix(s, prefix)] *)
Definition HasPrefix (s prefix : string) : bool := String.prefix prefix s.

(** [strings.Join(elems, sep)] *)
Fixpoint Join (elems : list string) (sep : string) : string :=
  match elems with
  | [] => ""
  | [x] => x
  | x :: rest => x ++ sep ++ Join rest sep
  end.

(** [strings.Contains(s, substr)] *)
Fixpoint Contains (s substr : string) : bool :=
  String.prefix substr s ||
  match s with
  | EmptyString => false
  | String _ s' => Contains s' substr
  end.

End strings.

(* ================================================================== *)
(** ** path/filepath (Unix) *)

Module filepath.

Definition IsPathSeparator (c : ascii) : bool := Ascii.eqb c "/".

(** The backward loop of [Ext]: [Some r] when the loop returns [r] at an
    index inside [path], [None] when it runs off the front. *)
Fixpoint ext_scan (path : string) : option string :=
  match path with
  | EmptyString => None
  | String c rest =>
      match ext_scan rest with
      | Some r => Some r
      | None =>
          if IsPathSeparator c then Some ""
          else if Ascii.eqb c "." then Some (String c rest)
          else None
      end
  end.

(** [filepath.Ext(path)]: the suffix starting at the last dot of the last
    path element, or the empty string. *)
Definition Ext (path : string) : string :=
  match ext_scan path with
  | Some r => r
  | None => ""
  end.

(** Strip trailing separators. *)
Fixpoint strip_trailing (path : string) : string :=
  match path with
  | EmptyString => ""
  | String c rest =>
      match strip_trailing rest with
      | EmptyString => if IsPathSeparator c then "" else String c ""
      | r => String c r
      end
  end.

Fixpoint has_separator (path : string) : bool :=
  match path with
  | EmptyString => false
  | String c rest => IsPathSeparator c || has_separator rest
  end.

(** [path[i+1:]] for the last separator index [i], the whole of [path] when
    there is none. *)
Fixpoint last_element (path : string) : string :=
  match path with
  | EmptyString => ""
  | String c rest =>
      if has_separator rest then last_element rest
      else if IsPathSeparator c then rest
      else String c rest
  end.

(** [filepath.Base(path)] *)
Definition Base (path : string) : string :=
  if (path =? "")%string then "."
  else
    let path := last_element (strip_trailing path) in
    if (path =? "")%string then "/" else path.

End filepath.

(* ================================================================== *)
(** ** net/textproto *)

Module textproto.

Definition is_lower (c : ascii) : bool :=
  (N.leb 97 (N_of_ascii c) && N.leb (N_of_ascii c) 122)%N.
Definition is_upper (c : ascii) : bool :=
  (N.leb 65 (N_of_ascii c) && N.leb (N_of_ascii c) 90)%N.
Definition is_digit (c : ascii) : bool :=
  (N.leb 48 (N_of_ascii c) && N.leb (N_of_ascii c) 57)%N.

Fixpoint mem_char (c : ascii) (s : string) : bool :=
  match s with
  | EmptyString => false
  | String d s' => Ascii.eqb c d || mem_char c s'
  end.

(** [validHeaderFieldByte]: the token characters of RFC 7230. *)
Definition validHeaderFieldByte (c : ascii) : bool :=
  is_lower c || is_upper c || is_digit c || mem_char c "!#$%&'*+-.^_`|~".

Fixpoint all_valid (s : string) : bool :=
  match s with
  | EmptyString => true
  | String c s' => validHeaderFieldByte c && all_valid s'
  end.

Definition to_upper (c : ascii) : ascii :=
  if is_lower c then ascii_of_N (N_of_ascii c - 32) else c.
Definition to_lower (c : ascii) : ascii :=
  if is_upper c then ascii_of_N (N_of_ascii c + 32) else c.

(** The capitalising loop: [upper] is true at the start and after a dash. *)
Fixpoint canon_loop (upper : bool) (s : string) : string :=
  match s with
  | EmptyString => ""
  | String c s' =>
      let c' := if upper then to_upper c else to_lower c in
      String c' (canon_loop (Ascii.eqb c' "-") s')
  end.

(** [textproto.CanonicalMIMEHeaderKey]: a key holding a byte that is not a
    token character is returned unchanged. *)
Definition CanonicalMIMEHeaderKey (s : string) : string :=
  if all_valid s then canon_loop true s else s.

(** [type MIMEHeader map[string][]string], as an association list with one
    binding per key. *)
Definition MIMEHeader := list (string * list string).

Definition empty : MIMEHeader := [].

Fixpoint set_key (k : string) (v : list string) (h : MIMEHeader) : MIMEHeader :=
  match h with
  | [] => [(k, v)]
  | (k', v') :: h' =>
      if (k =? k')%string then (k, v) :: h' else (k', v') :: set_key k v h'
  end.

(** [h.Set(key, value)] *)
Definition Set_ (h : MIMEHeader) (key value : string) : MIMEHeader :=
  set_key (CanonicalMIMEHeaderKey key) [value] h.

End textproto.

(* ================================================================== *)
(** ** mime *)

Module mime.

(** [mime.TypeByExtension(ext)] over a lookup table [tbl] (the table is built
    from the system's MIME databases when the program starts): the empty
    string when the extension is unknown. *)
Definition TypeByExtension (tbl : string -> option string) (ext : string) : string :=
  match tbl ext with
  | Some t => t
  | None => ""
  end.

End mime.

(* ================================================================== *)
(** ** The program's world *)

(** Go [error] values met by the program. *)
Inductive error : Type :=
| errors_New (text : string)                 (* errors.New(text) *)
| PathError (op path cause : string)         (* *fs.PathError of package os *)
| smtp_error (text : string).                (* a failure of net/smtp *)

(** [smtp.PlainAuth(identity, username, password, host)] *)
Record Auth : Type := PlainAuth {
  auth_identity : string;
  auth_username : string;
  auth_password : string;
  auth_host : string
}.

Record EmailConfig : Type := {
  EmailAddress : string;
  Password : string;
  Host : string;
  Port : string;
  SenderName : string;
  ReplyTo : string;
  AttachmentPathPrefix : string;
  BccAddressToSendCopy : string
}.

(** Calls to the collaborators, in the order they happen. *)
Inductive event : Type :=
| ReadFile (name : string)
| SendMail (addr : string) (a : Auth) (from : string) (to : list string) (msg : string)
| LogError (text : string) (e : error).

(** What the collaborators answer. *)
Record Env : Type := {
  rand_Reader : nat -> ascii;                     (* crypto/rand: the n-th byte read *)
  os_ReadFile : string -> error + string;         (* os.ReadFile *)
  mimeTypes : string -> option string;            (* the table of package mime *)
  smtp_SendMail : string -> Auth -> string -> list string -> string -> option error
}.

(** A [[]string]: the elements below [len], and the cells of the backing
    array between [len] and [cap]. *)
Record slice : Type := {
  elems : list string;
  spare : list string
}.

(** [append(s, x)]: the resulting slice, and [s] as it is seen afterwards.
    With capacity left the element is stored in the shared backing array,
    otherwise a fresh array is allocated and the old one is left alone. *)
Definition append_slice (s : slice) (x : string) : slice * slice :=
  match spare s with
  | [] => ({| elems := elems s ++ [x]; spare := [] |}, s)
  | _ :: cells =>
      ({| elems := elems s ++ [x]; spare := cells |},
       {| elems := elems s; spare := x :: cells |})
  end.

Module multipart.

(** [type Writer struct]; [w] always points to the one buffer of the running
    build. [lastpart] is the number of the part still open, if any. *)
Record Writer : Type := {
  boundary : string;
  lastpart : option nat;
  created : nat
}.

(** A [*part]: its writer and its number among that writer's parts. The part
    is closed as soon as it is no longer its writer's [lastpart]. *)
Record part : Type := {
  mw : nat;
  number : nat
}.

End multipart.

Record State : Type := {
  emailConfig : EmailConfig;            (* var emailConfig EmailConfig *)
  rand_read : nat;                      (* bytes read from crypto/rand so far *)
  trace : list event;                   (* collaborator calls, oldest first *)
  buf : string;                         (* the bytes.Buffer of the running build *)
  writers : list multipart.Writer       (* the multipart writers allocated *)
}.

Definition set_emailConfig (c : EmailConfig) (st : State) : State :=
  {| emailConfig := c; rand_read := rand_read st; trace := trace st;
     buf := buf st; writers := writers st |}.
Definition set_rand_read (n : nat) (st : State) : State :=
  {| emailConfig := emailConfig st; rand_read := n; trace := trace st;
     buf := buf st; writers := writers st |}.
Definition set_trace (t : list event) (st : State) : State :=
  {| emailConfig := emailConfig st; rand_read := rand_read st; trace := t;
     buf := buf st; writers := writers st |}.
Definition set_buf (b : string) (st : State) : State :=
  {| emailConfig := emailConfig st; rand_read := rand_read st; trace := trace st;
     buf := b; writers := writers st |}.
Definition set_writers (ws : list multipart.Writer) (st : State) : State :=
  {| emailConfig := emailConfig st; rand_read := rand_read st; trace := trace st;
     buf := buf st; writers := ws |}.

(** *** State and error monad *)

Definition M (A : Type) : Type := State -> (error + A) * State.

Definition ret {A} (a : A) : M A := fun st => (inr a, st).
Definition fail {A} (e : error) : M A := fun st => (inl e, st).
Definition bind {A B} (m : M A) (k : A -> M B) : M B :=
  fun st =>
    match m st with
    | (inl e, st') => (inl e, st')
    | (inr a, st') => k a st'
    end.

Notation "x <- m ;; k" := (bind m (fun x => k))
  (at level 61, m at next level, right associativity).
Notation "m ;;; k" := (bind m (fun _ => k))
  (at level 61, right associativity).

(** Running [m] and handing its outcome, error or value, to the caller. *)
Definition try {A} (m : M A) : M (error + A) :=
  fun st => let (r, st') := m st in (inr r, st').

Definition gets {A} (f : State -> A) : M A := fun st => (inr (f st), st).
Definition modify (f : State -> State) : M unit := fun st => (inr tt, f st).
Definition emit (ev : event) : M unit :=
  modify (fun st => set_trace (trace st ++ [ev]) st).

(* ================================================================== *)
(** ** bytes.Buffer and mime/multipart over the state *)

(** [var buf bytes.Buffer] *)
Definition Buffer_new : M unit := modify (set_buf "").

(** [buf.Write(p)]; it never returns an error. *)
Definition Buffer_Write (p : string) : M unit :=
  modify (fun st => set_buf (buf st ++ p) st).

(** [buf.Bytes()] *)
Definition Buffer_Bytes : M string := gets buf.

Definition hexdigit (n : N) : ascii :=
  match String.get (N.to_nat n) "0123456789abcdef" with
  | Some c => c
  | None => zero
  end.

(** [fmt.Sprintf("%x", b)] for one byte [b]. *)
Definition hex_byte (c : ascii) : string :=
  String (hexdigit (N_of_ascii c / 16)) (String (hexdigit (N_of_ascii c mod 16)) "").

Fixpoint hex_bytes (l : list ascii) : string :=
  match l with
  | [] => ""
  | c :: l' => hex_byte c ++ hex_bytes l'
  end.

Definition default_Writer : multipart.Writer :=
  {| multipart.boundary := ""; multipart.lastpart := None; multipart.created := 0 |}.

Definition mkWriter (b : string) (lp : option nat) (n : nat) : multipart.Writer :=
  {| multipart.boundary := b; multipart.lastpart := lp; multipart.created := n |}.

Definition mkState (cfg : EmailConfig) (pos : nat) (tr : list event) (b : string)
    (ws : list multipart.Writer) : State :=
  {| emailConfig := cfg; rand_read := pos; trace := tr; buf := b; writers := ws |}.

(** Dereference of a [*Writer]; every handle the program holds is valid. *)
Definition get_Writer (w : nat) : M multipart.Writer :=
  gets (fun st => nth w (writers st) default_Writer).

Fixpoint update {A} (n : nat) (x : A) (l : list A) : list A :=
  match l, n with
  | [], _ => []
  | _ :: l', O => x :: l'
  | y :: l', S n' => y :: update n' x l'
  end.

Definition put_Writer (w : nat) (wr : multipart.Writer) : M unit :=
  modify (fun st => set_writers (update w wr (writers st)) st).

(** Insertion of a key into a list of keys sorted bytewise, as [slices.Sort]
    leaves them. *)
Fixpoint insert_key (k : string * list string) (l : list (string * list string)) :=
  match l with
  | [] => [k]
  | k' :: l' => if String.leb (fst k) (fst k') then k :: l else k' :: insert_key k l'
  end.

Definition sort_keys (h : textproto.MIMEHeader) : list (string * list string) :=
  fold_right insert_key [] h.

Fixpoint header_values (k : string) (vs : list string) : string :=
  match vs with
  | [] => ""
  | v :: vs' => k ++ ": " ++ v ++ CRLF ++ header_values k vs'
  end.

Fixpoint header_lines (h : list (string * list string)) : string :=
  match h with
  | [] => ""
  | (k, vs) :: h' => header_values k vs ++ header_lines h'
  end.

Section Program.

Variable env : Env.

(** [randomBoundary()]: thirty bytes of crypto/rand, printed in hexadecimal. *)
Definition randomBoundary : M string :=
  pos <- gets rand_read ;;
  modify (set_rand_read (pos + 30)) ;;;
  ret (hex_bytes (map (rand_Reader env) (seq pos 30))).

(** [multipart.NewWriter(&buf)] *)
Definition NewWriter : M nat :=
  b <- randomBoundary ;;
  ws <- gets writers ;;
  modify (set_writers
            (ws ++ [{| multipart.boundary := b; multipart.lastpart := None;
                       multipart.created := 0 |}])) ;;;
  ret (List.length ws).

(** [w.Boundary()] *)
Definition Writer_Boundary (w : nat) : M string :=
  wr <- get_Writer w ;;
  ret (multipart.boundary wr).

(** [w.CreatePart(header)]: closes the part that was open, writes the
    delimiter line (preceded by CRLF unless this is the first part written
    since the writer was created or closed) and the header block. *)
Definition Writer_CreatePart (w : nat) (header : textproto.MIMEHeader) : M multipart.part :=
  wr <- get_Writer w ;;
  let delimiter :=
    match multipart.lastpart wr with
    | Some _ => CRLF ++ "--" ++ multipart.boundary wr ++ CRLF
    | None => "--" ++ multipart.boundary wr ++ CRLF
    end in
  Buffer_Write (delimiter ++ header_lines (sort_keys header) ++ CRLF) ;;;
  let n := S (multipart.created wr) in
  put_Writer w {| multipart.boundary := multipart.boundary wr;
                  multipart.lastpart := Some n;
                  multipart.created := n |} ;;;
  ret {| multipart.mw := w; multipart.number := n |}.

(** [p.Write(d)] *)
Definition part_Write (p : multipart.part) (d : string) : M nat :=
  wr <- get_Writer (multipart.mw p) ;;
  match multipart.lastpart wr with
  | Some n =>
      if Nat.eqb n (multipart.number p)
      then Buffer_Write d ;;; ret (String.length d)
      else fail (errors_New "multipart: can't write to finished part")
  | None => fail (errors_New "multipart: can't write to finished part")
  end.

(** [w.Close()] *)
Definition Writer_Close (w : nat) : M unit :=
  wr <- get_Writer w ;;
  put_Writer w {| multipart.boundary := multipart.boundary wr;
                  multipart.lastpart := None;
                  multipart.created := multipart.created wr |} ;;;
  Buffer_Write (CRLF ++ "--" ++ multipart.boundary wr ++ "--" ++ CRLF).

(** [os.ReadFile(name)] *)
Definition ReadFile_call (name : string) : M string :=
  emit (ReadFile name) ;;;
  match os_ReadFile env name with
  | inl e => fail e
  | inr data => ret data
  end.

(** [smtp.SendMail(addr, a, from, to, msg)]; the result is the error, [None]
    for [nil]. *)
Definition SendMail_call (addr : string) (a : Auth) (from : string)
    (to : slice) (msg : string) : M (option error) :=
  emit (SendMail addr a from (elems to) msg) ;;;
  ret (smtp_SendMail env addr a from (elems to) msg).

(** [gohelpers.LogError(text, e)] *)
Definition LogError_call (text : string) (e : error) : M unit :=
  emit (LogError text e).

(* ================================================================== *)
(** ** package gosmtpmail *)

(** [func SetConfig(config EmailConfig)] *)
Definition SetConfig (config : EmailConfig) : M unit :=
  modify (set_emailConfig config).

(** [func emailAuth() smtp.Auth] *)
Definition emailAuth : M Auth :=
  cfg <- gets emailConfig ;;
  ret (PlainAuth "" (EmailAddress cfg) (Password cfg) (Host cfg)).

(** [func encodeHeader(header string) string] *)
Definition encodeHeader (header : string) : string :=
  "=?UTF-8?B?" ++ base64.EncodeToString header ++ "?=".

(** The two errors [createEmailMessage] makes itself. *)
Definition InvalidAttachmentPath (prefix : string) : error :=
  errors_New ("attachment path must start with: " ++ prefix).
Definition EmptyBody : error :=
  errors_New "neither body nor htmlBody provided".

Definition nonempty (s : string) : bool := negb (s =? "")%string.

(** The block [// Body part] of [createEmailMessage]. *)
Definition createEmailMessage_body (writer : nat) (boundary body htmlBody : string) : M unit :=
  if nonempty body && nonempty htmlBody then
    (* If both text and HTML are provided *)
    altWriter <- NewWriter ;;
    altBoundary <- Writer_Boundary altWriter ;;
    Buffer_Write ("--" ++ boundary ++ CRLF ++
                  "Content-Type: multipart/alternative; boundary=" ++ altBoundary ++
                  CRLF ++ CRLF) ;;;
    (* Plain text part *)
    let textHeader := textproto.empty in
    let textHeader := textproto.Set_ textHeader "Content-Type" "text/plain; charset=UTF-8" in
    textPart <- Writer_CreatePart altWriter textHeader ;;
    _ <- part_Write textPart body ;;
    (* HTML part *)
    let htmlHeader := textproto.empty in
    let htmlHeader := textproto.Set_ htmlHeader "Content-Type" "text/html; charset=UTF-8" in
    htmlPart <- Writer_CreatePart altWriter htmlHeader ;;
    _ <- part_Write htmlPart htmlBody ;;
    Writer_Close altWriter
  else if nonempty body then
    (* If only text is provided *)
    let textHeader := textproto.empty in
    let textHeader := textproto.Set_ textHeader "Content-Type" "text/plain; charset=UTF-8" in
    textPart <- Writer_CreatePart writer textHeader ;;
    _ <- part_Write textPart body ;;
    ret tt
  else if nonempty htmlBody then
    (* If only HTML is provided *)
    let htmlHeader := textproto.empty in
    let htmlHeader := textproto.Set_ htmlHeader "Content-Type" "text/html; charset=UTF-8" in
    htmlPart <- Writer_CreatePart writer htmlHeader ;;
    _ <- part_Write htmlPart htmlBody ;;
    ret tt
  else fail EmptyBody.

(** The block [// Attachment part] of [createEmailMessage]. *)
Definition createEmailMessage_attachment (writer : nat) (attachmentPath : string) : M unit :=
  if nonempty attachmentPath then
    attachment <- ReadFile_call attachmentPath ;;
    let attachmentHeader := textproto.empty in
    let attachmentHeader :=
      textproto.Set_ attachmentHeader "Content-Type"
        (mime.TypeByExtension (mimeTypes env) (filepath.Ext attachmentPath)) in
    let attachmentHeader :=
      textproto.Set_ attachmentHeader "Content-Disposition"
        ("attachment; filename=" ++
         String DQUOTE (filepath.Base attachmentPath ++ String DQUOTE "")) in
    let attachmentHeader :=
      textproto.Set_ attachmentHeader "Content-Transfer-Encoding" "base64" in
    attachmentPart <- Writer_CreatePart writer attachmentHeader ;;
    let encoded := base64.EncodeToString attachment in
    _ <- part_Write attachmentPart encoded ;;
    ret tt
  else ret tt.

(** [func createEmailMessage(subject, body, htmlBody, attachmentPath string,
    to []string) ([]byte, error)] *)
Definition createEmailMessage (subject body htmlBody attachmentPath : string)
    (to : slice) : M string :=
  (* Check if attachment path starts with the configured prefix *)
  cfg <- gets emailConfig ;;
  let prefix := AttachmentPathPrefix cfg ++ "/" in
  if nonempty attachmentPath && negb (strings.HasPrefix attachmentPath prefix)
  then fail (InvalidAttachmentPath prefix)
  else
    Buffer_new ;;;
    writer <- NewWriter ;;
    (* Headers *)
    boundary <- Writer_Boundary writer ;;
    let headers :=
      "MIME-Version: 1.0" ++ CRLF ++
      "From: " ++ encodeHeader (SenderName cfg) ++ " <" ++ EmailAddress cfg ++ ">" ++ CRLF ++
      "To: " ++ strings.Join (elems to) ", " ++ CRLF ++
      "Subject: " ++ encodeHeader subject ++ CRLF ++
      "Reply-To: " ++ ReplyTo cfg ++ CRLF ++
      "Content-Type: multipart/mixed; boundary=" ++ boundary ++ CRLF ++ CRLF in
    Buffer_Write headers ;;;
    createEmailMessage_body writer boundary body htmlBody ;;;
    createEmailMessage_attachment writer attachmentPath ;;;
    Writer_Close writer ;;;
    Buffer_Bytes.

(** [func EmailSender(subject, body, htmlBody, attachmentPath string,
    to []string) bool]. The error of the build is a value the function
    inspects; the function itself always returns. *)
Definition EmailSender (subject body htmlBody attachmentPath : string)
    (to : slice) : M bool :=
  (* Define Auth *)
  auth <- emailAuth ;;
  (* Append BCC address if it's not empty *)
  cfg <- gets emailConfig ;;
  let '(recipients, to) :=
    if nonempty (BccAddressToSendCopy cfg)
    then append_slice to (BccAddressToSendCopy cfg)
    else (to, to) in
  (* Create message *)
  r <- try (createEmailMessage subject body htmlBody attachmentPath to) ;;
  match r with
  | inl e =>
      LogError_call "Error creating message:" e ;;;
      ret false
  | inr message =>
      (* Send mail *)
      cfg <- gets emailConfig ;;
      err <- SendMail_call (Host cfg ++ ":" ++ Port cfg) auth (EmailAddress cfg)
                           recipients message ;;
      match err with
      | Some err =>
          LogError_call "Error sending email:" err ;;;
          ret false
      | None => ret true
      end
  end.

End Program.

(* ================================================================== *)
(** ** Reference formats

    The formats the program writes, stated independently of it: the MIME
    entity syntax of RFC 2045/2046 and the encoded words of RFC 2047. *)

Module rfc2046.

(** A MIME entity: a discrete body under its header fields, or a multipart
    body with its parts. The [fields] of a multipart entity are the header
    fields other than Content-Type, which is written last. [epilogue] is what
    follows the close delimiter: [None] when nothing does, [Some e] for CRLF
    followed by [e]. *)
Inductive entity : Type :=
| Leaf (fields : list (string * string)) (content : string)
| Multipart (fields : list (string * string)) (subtype boundary : string)
    (parts : list entity) (epilogue : option string).

Fixpoint render_fields (fs : list (string * string)) : string :=
  match fs with
  | [] => ""
  | (name, value) :: fs' => name ++ ": " ++ value ++ CRLF ++ render_fields fs'
  end.

(** Serialisation: header block, empty line, body; in a multipart body every
    part follows a dash-boundary line and the close delimiter ends it. *)
Fixpoint render (e : entity) : string :=
  match e with
  | Leaf fs content => render_fields fs ++ CRLF ++ content
  | Multipart fs subtype boundary parts epilogue =>
      render_fields fs ++
      "Content-Type: multipart/" ++ subtype ++ "; boundary=" ++ boundary ++ CRLF ++ CRLF ++
      (fix render_parts (ps : list entity) : string :=
         match ps with
         | [] => ""
         | p :: ps' => "--" ++ boundary ++ CRLF ++ render p ++ CRLF ++ render_parts ps'
         end) parts ++
      "--" ++ boundary ++ "--" ++
      match epilogue with
      | None => ""
      | Some e => CRLF ++ e
      end
  end.

(** The content type of an entity, as its header block states it. *)
Definition content_type (e : entity) : option string :=
  match e with
  | Leaf fs _ =>
      option_map snd (find (fun f => (fst f =? "Content-Type")%string) fs)
  | Multipart _ subtype boundary _ _ =>
      Some ("multipart/" ++ subtype ++ "; boundary=" ++ boundary)
  end.

(** *** Reading an entity back

    A reader for the syntax above, used to check concrete messages. *)

Fixpoint drop (n : nat) (s : string) : string :=
  match n, s with
  | O, _ => s
  | S n', String _ s' => drop n' s'
  | S _, EmptyString => ""
  end.

(** The text before the first occurrence of [sep] in [s], and the text after
    that occurrence. *)
Fixpoint split_at (sep s : string) {struct s} : option (string * string) :=
  if String.prefix sep s then Some ("", drop (String.length sep) s)
  else
    match s with
    | EmptyString => None
    | String c s' =>
        match split_at sep s' with
        | Some (front, back) => Some (String c front, back)
        | None => None
        end
    end.

(** The fields of a header block up to the empty line, and what follows it. *)
Fixpoint read_fields (fuel : nat) (s : string) : option (list (string * string) * string) :=
  match fuel with
  | O => None
  | S fuel' =>
      if String.prefix CRLF s then Some ([], drop 2 s)
      else
        match split_at CRLF s with
        | Some (line, rest) =>
            match split_at ": " line, read_fields fuel' rest with
            | Some (name, value), Some (fs, body) => Some ((name, value) :: fs, body)
            | _, _ => None
            end
        | None => None
        end
  end.

(** The texts of the body parts from the first one on, and the epilogue. *)
Fixpoint read_parts (fuel : nat) (boundary s : string)
  : option (list string * option string) :=
  match fuel with
  | O => None
  | S fuel' =>
      match split_at (CRLF ++ "--" ++ boundary) s with
      | Some (part, rest) =>
          if String.prefix "--" rest then
            match drop 2 rest with
            | EmptyString => Some ([part], None)
            | after =>
                if String.prefix CRLF after then Some ([part], Some (drop 2 after))
                else None
            end
          else if String.prefix CRLF rest then
            match read_parts fuel' boundary (drop 2 rest) with
            | Some (ps, epilogue) => Some (part :: ps, epilogue)
            | None => None
            end
          else None
      | None => None
      end
  end.

Definition multipart_type (value : string) : option (string * string) :=
  if String.prefix "multipart/" value then split_at "; boundary=" (drop 10 value)
  else None.

Fixpoint all_some {A} (l : list (option A)) : option (list A) :=
  match l with
  | [] => Some []
  | Some x :: l' => option_map (cons x) (all_some l')
  | None :: _ => None
  end.

(** [read depth s]: the entity written in [s], nested at most [depth] deep. *)
Fixpoint read (depth : nat) (s : string) : option entity :=
  match depth with
  | O => None
  | S depth' =>
      match read_fields (S (String.length s)) s with
      | Some (fs, body) =>
          match rev fs with
          | (name, value) :: others =>
              match (if (name =? "Content-Type")%string then multipart_type value
                     else None) with
              | Some (subtype, boundary) =>
                  if String.prefix ("--" ++ boundary ++ CRLF) body then
                    match read_parts (S (String.length body)) boundary
                            (drop (String.length boundary + 4) body) with
                    | Some (texts, epilogue) =>
                        match all_some (map (read depth') texts) with
                        | Some parts =>
                            Some (Multipart (rev others) subtype boundary parts epilogue)
                        | None => None
                        end
                    | None => None
                    end
                  else None
              | None => Some (Leaf fs body)
              end
          | [] => Some (Leaf fs body)
          end
      | None => None
      end
  end.

End rfc2046.

Module rfc2047.

Fixpoint lower (s : string) : string :=
  match s with
  | EmptyString => ""
  | String c s' => String (textproto.to_lower c) (lower s')
  end.

(** [cut s]: the text before the first question mark, and the text after it. *)
Fixpoint cut (s : string) : option (string * string) :=
  match s with
  | EmptyString => None
  | String c s' =>
      if Ascii.eqb c "?" then Some ("", s')
      else match cut s' with
           | Some (front, back) => Some (String c front, back)
           | None => None
           end
  end.

(** Decoding of one encoded word [=?charset?encoding?encoded-text?=] whose
    charset is UTF-8 and whose encoding is B. *)
Definition decode_word (w : string) : option string :=
  match w with
  | String "=" (String "?" w1) =>
      match cut w1 with
      | Some (charset, w2) =>
          match cut w2 with
          | Some (encoding, w3) =>
              match cut w3 with
              | Some (text, String "=" EmptyString) =>
                  if ((lower charset =? "utf-8") && (lower encoding =? "b"))%string
                  then base64.DecodeString text
                  else None
              | _ => None
              end
          | None => None
          end
      | None => None
      end
  | _ => None
  end.

End rfc2047.

(* ================================================================== *)
(** ** The message the builder is expected to write *)

Import rfc2046.

(** The boundary made of the thirty random bytes from position [pos] on. *)
Definition boundary_at (env : Env) (pos : nat) : string :=
  hex_bytes (map (rand_Reader env) (seq pos 30)).

Definition message_fields (cfg : EmailConfig) (subject : string) (to : list string)
  : list (string * string) :=
  [ ("MIME-Version", "1.0");
    ("From", encodeHeader (SenderName cfg) ++ " <" ++ EmailAddress cfg ++ ">");
    ("To", strings.Join to ", ");
    ("Subject", encodeHeader subject);
    ("Reply-To", ReplyTo cfg) ].

Definition text_part (body : string) : entity :=
  Leaf [("Content-Type", "text/plain; charset=UTF-8")] body.

Definition html_part (htmlBody : string) : entity :=
  Leaf [("Content-Type", "text/html; charset=UTF-8")] htmlBody.

Definition alternative_part (altBoundary body htmlBody : string) (epilogue : option string)
  : entity :=
  Multipart [] "alternative" altBoundary [text_part body; html_part htmlBody] epilogue.

Definition attachment_part (contentType attachmentPath content : string) : entity :=
  Leaf [ ("Content-Disposition",
          "attachment; filename=" ++
          String DQUOTE (filepath.Base attachmentPath ++ String DQUOTE ""));
         ("Content-Transfer-Encoding", "base64");
         ("Content-Type", contentType) ]
       content.

(** The body parts for the three cases of the bodies given; [attached] tells
    whether an attachment part follows. *)
Definition body_parts (altBoundary body htmlBody : string) (attached : bool)
  : option (list entity) :=
  if nonempty body && nonempty htmlBody then
    Some [alternative_part altBoundary body htmlBody (if attached then None else Some "")]
  else if nonempty body then Some [text_part body]
  else if nonempty htmlBody then Some [html_part htmlBody]
  else None.

Definition message_of (cfg : EmailConfig) (subject : string) (to : list string)
    (boundary : string) (parts : list entity) : string :=
  render (Multipart (message_fields cfg subject to) "mixed" boundary parts (Some "")).

(** The outcome of a build as a function of the configuration, the two
    boundaries drawn, the file system's answer and the content type found. *)
Definition built (cfg : EmailConfig) (boundary altBoundary : string)
    (file : error + string) (contentType : string)
    (subject body htmlBody attachmentPath : string) (to : list string) : error + string :=
  let prefix := AttachmentPathPrefix cfg ++ "/" in
  if nonempty attachmentPath && negb (strings.HasPrefix attachmentPath prefix)
  then inl (InvalidAttachmentPath prefix)
  else
    match body_parts altBoundary body htmlBody (nonempty attachmentPath) with
    | None => inl EmptyBody
    | Some bodies =>
        if nonempty attachmentPath then
          match file with
          | inl e => inl e
          | inr data =>
              inr (message_of cfg subject to boundary
                     (bodies ++ [attachment_part contentType attachmentPath
                                   (base64.EncodeToString data)]))
          end
        else inr (message_of cfg subject to boundary bodies)
    end.

(** The collaborator calls a build adds to the trace. *)
Definition build_events (cfg : EmailConfig) (body htmlBody attachmentPath : string)
  : list event :=
  let prefix := AttachmentPathPrefix cfg ++ "/" in
  if nonempty attachmentPath && strings.HasPrefix attachmentPath prefix
     && (nonempty body || nonempty htmlBody)
  then [ReadFile attachmentPath]
  else [].

(** The attachment parts of a message: none for the empty path, one for a
    file that can be read. *)
Definition attachment_parts (env : Env) (attachmentPath : string) : error + list entity :=
  if nonempty attachmentPath then
    match os_ReadFile env attachmentPath with
    | inl e => inl e
    | inr data =>
        inr [attachment_part
               (mime.TypeByExtension (mimeTypes env) (filepath.Ext attachmentPath))
               attachmentPath (base64.EncodeToString data)]
    end
  else inr [].

(** The value of the first field called [name] in a header block. *)
Definition field_value (name : string) (fs : list (string * string)) : option string :=
  option_map snd (find (fun f => (fst f =? name)%string) fs).

(** What [EmailSender] hands to the transport. *)
Definition send_addr (cfg : EmailConfig) : string := Host cfg ++ ":" ++ Port cfg.

Definition auth_of (cfg : EmailConfig) : Auth :=
  PlainAuth "" (EmailAddress cfg) (Password cfg) (Host cfg).

Definition envelope (cfg : EmailConfig) (to : list string) : list string :=
  (to ++ if nonempty (BccAddressToSendCopy cfg) then [BccAddressToSendCopy cfg] else [])%list.

Definition is_SendMail (ev : event) : bool :=
  match ev with
  | SendMail _ _ _ _ _ => true
  | _ => false
  end.

(** The collaborator calls made between two states. *)
Definition new_events (before after : State) : list event :=
  skipn (List.length (trace before)) (trace after).

(** The guard at the head of [createEmailMessage]. *)
Definition path_allowed (cfg : EmailConfig) (attachmentPath : string) : bool :=
  negb (nonempty attachmentPath
        && negb (strings.HasPrefix attachmentPath (AttachmentPathPrefix cfg ++ "/"))).

(** The configuration with another BCC address. *)
Definition with_bcc (bcc : string) (cfg : EmailConfig) : EmailConfig :=
  {| EmailAddress := EmailAddress cfg; Password := Password cfg; Host := Host cfg;
     Port := Port cfg; SenderName := SenderName cfg; ReplyTo := ReplyTo cfg;
     AttachmentPathPrefix := AttachmentPathPrefix cfg; BccAddressToSendCopy := bcc |}.

(** *** A sample world *)

Definition sample_config : EmailConfig :=
  {| EmailAddress := "me@x.com"; Password := "secret"; Host := "smtp.x.com";
     Port := "587"; SenderName := "Me"; ReplyTo := "reply@x.com";
     AttachmentPathPrefix := "storage"; BccAddressToSendCopy := "bcc@x.com" |}.

Definition sample_env : Env :=
  {| rand_Reader := fun n => ascii_of_nat n;
     os_ReadFile := fun name =>
       if (name =? "storage/report.zzz")%string then inr "hello"
       else if (name =? "storage/notes.txt")%string then inr "some notes"
       else inl (PathError "open" name "no such file or directory");
     mimeTypes := fun ext =>
       if (ext =? ".txt")%string then Some "text/plain; charset=utf-8" else None;
     smtp_SendMail := fun _ _ _ _ _ => None |}.

Definition sample_state : State :=
  {| emailConfig := sample_config; rand_read := 0; trace := []; buf := ""; writers := [] |}.

Definition slice_of (l : list string) : slice := {| elems := l; spare := [] |}.

(** *** Observations on traces and byte strings *)

Definition is_LogError (ev : event) : bool :=
  match ev with
  | LogError _ _ => true
  | _ => false
  end.

Fixpoint string_forall (p : ascii -> bool) (s : string) : bool :=
  match s with
  | EmptyString => true
  | String c s' => p c && string_forall p s'
  end.

(** A printable ASCII character other than the space. *)
Definition printable (c : ascii) : bool :=
  (N.leb 33 (N_of_ascii c) && N.leb (N_of_ascii c) 126)%N.

Definition is_hex_digit (c : ascii) : bool :=
  textproto.is_digit c || (N.leb 97 (N_of_ascii c) && N.leb (N_of_ascii c) 102)%N.

(** The sample world with a transport that refuses every message. *)
Definition sample_env_down : Env :=
  {| rand_Reader := rand_Reader sample_env;
     os_ReadFile := os_ReadFile sample_env;
     mimeTypes := mimeTypes sample_env;
     smtp_SendMail := fun _ _ _ _ _ => Some (smtp_error "connection refused") |}.

(** The random bytes a build reads: none when the attachment path is
    refused, thirty for the outer boundary, thirty more for the nested one
    when both bodies are given. *)
Definition random_bytes_drawn (cfg : EmailConfig) (body htmlBody attachmentPath : string)
  : nat :=
  if path_allowed cfg attachmentPath
  then if nonempty body && nonempty htmlBody then 60 else 30
  else 0.

(** The sample world with other random bytes from the thirty-first on. *)
Definition sample_env_other : Env :=
  {| rand_Reader := fun n => if Nat.ltb n 30 then ascii_of_nat n else zero;
     os_ReadFile := os_ReadFile sample_env;
     mimeTypes := mimeTypes sample_env;
     smtp_SendMail := smtp_SendMail sample_env |}.

(** [ext] is the extension of the last element of [path]: either a dot
    followed by text with neither dot nor slash that ends the path, or nothing
    when the text after the last slash (the whole path when it has no slash)
    holds no dot. *)
Definition is_last_extension (path ext : string) : Prop :=
  (exists front e,
      path = front ++ ext /\ ext = String "." e
      /\ filepath.has_separator e = false /\ textproto.mem_char "." e = false)
  \/ (ext = ""
      /\ exists dir elem,
           path = dir ++ elem
           /\ (dir = "" \/ exists d, dir = d ++ "/")
           /\ filepath.has_separator elem = false
           /\ textproto.mem_char "." elem = false).

(* ################################################################## *)
(** * Properties *)

(** ** Byte strings *)

Lemma append_nil_r (s : string) : s ++ "" = s.
Proof. induction s as [|c s IH]; simpl; congruence. Qed.

Lemma append_assoc (s t u : string) : (s ++ t) ++ u = s ++ (t ++ u).
Proof. induction s as [|c s IH]; simpl; congruence. Qed.

(** Induction three bytes at a time, the stride of the base64 encoder. *)
Lemma string_ind3 (P : string -> Prop) :
  P "" ->
  (forall a, P (String a "")) ->
  (forall a b, P (String a (String b ""))) ->
  (forall a b c rest, P rest -> P (String a (String b (String c rest)))) ->
  forall s, P s.
Proof.
  intros H0 H1 H2 H3 s.
  assert (H : P s /\ (forall a, P (String a s)) /\ (forall a b, P (String a (String b s)))).
  { induction s as [|c s (IHa & IHb & IHc)].
    - repeat split; auto.
    - repeat split; auto. }
  exact (proj1 H).
Qed.

(** ** Base64 *)

Module base64_facts.
Import base64.

Local Open Scope Z_scope.

Lemma byte_val_range (c : ascii) : 0 <= byte_val c < 256.
Proof.
  unfold byte_val. pose proof (N_ascii_bounded c) as H. lia.
Qed.

Lemma byte_of_val (c : ascii) : byte_of (byte_val c) = c.
Proof.
  unfold byte_of, byte_val. rewrite N2Z.id. apply ascii_N_embedding.
Qed.

(** The shifts of the encoder never reach the word size. *)
Lemma uint_shl_byte (c : ascii) (n : Z) :
  0 <= n <= 16 -> uint_shl (byte_val c) n = Z.shiftl (byte_val c) n.
Proof.
  intros Hn. unfold uint_shl. apply Z.mod_small.
  pose proof (byte_val_range c) as Hc.
  rewrite Z.shiftl_mul_pow2 by lia.
  assert (0 < 2 ^ n) by (apply Z.pow_pos_nonneg; lia).
  assert (2 ^ n <= 2 ^ 16) by (apply Z.pow_le_mono_r; lia).
  change (2 ^ 16) with 65536 in *. change (2 ^ 64) with 18446744073709551616. nia.
Qed.

Lemma mask6_range (x : Z) : 0 <= Z.land x 63 < 64.
Proof.
  change 63 with (Z.ones 6). rewrite Z.land_ones by lia.
  apply Z.mod_pos_bound. reflexivity.
Qed.

(** Every index below 64 names a character of the alphabet that is neither
    the padding nor a question mark, and that the decoder maps back. *)
Lemma encode_at_spec (i : Z) :
  0 <= i < 64 ->
  decode_char (encode_at i) = Some i /\
  Ascii.eqb (encode_at i) padChar = false /\
  Ascii.eqb (encode_at i) "?" = false /\
  in_table (encode_at i) encodeStd = true.
Proof.
  intros Hi.
  assert (Hn : exists n, (n < 64)%nat /\ i = Z.of_nat n).
  { exists (Z.to_nat i). split; lia. }
  destruct Hn as (n & Hn & ->).
  do 64 (destruct n as [|n]; [vm_compute; auto|]).
  lia.
Qed.

Lemma sextet_decode (v k : Z) :
  decode_char (sextet v k) = Some (Z.land (Z.shiftr v k) 63).
Proof. apply encode_at_spec, mask6_range. Qed.

Lemma sextet_not_pad (v k : Z) : Ascii.eqb (sextet v k) padChar = false.
Proof. apply encode_at_spec, mask6_range. Qed.

Lemma sextet_not_qmark (v k : Z) : Ascii.eqb (sextet v k) "?" = false.
Proof. apply encode_at_spec, mask6_range. Qed.

Ltac decide_cmp :=
  repeat match goal with
  | |- context [(?a <? ?b)%Z] =>
      first [ replace (a <? b)%Z with true by (symmetry; apply Z.ltb_lt; lia)
            | replace (a <? b)%Z with false by (symmetry; apply Z.ltb_ge; lia) ]
  | |- context [(?a <=? ?b)%Z] =>
      first [ replace (a <=? b)%Z with true by (symmetry; apply Z.leb_le; lia)
            | replace (a <=? b)%Z with false by (symmetry; apply Z.leb_gt; lia) ]
  end.

Lemma sextet_in_table (v k : Z) : in_table (sextet v k) encodeStd = true.
Proof. apply encode_at_spec, mask6_range. Qed.

Lemma testbit_high (v k n : Z) :
  0 <= v < 2 ^ k -> 0 <= k <= n -> Z.testbit v n = false.
Proof.
  intros Hv Hk.
  destruct (Z.eq_dec v 0) as [->|Hne]; [apply Z.bits_0|].
  apply Z.bits_above_log2; [lia|].
  apply Z.log2_lt_pow2; [lia|].
  assert (2 ^ k <= 2 ^ n) by (apply Z.pow_le_mono_r; lia). lia.
Qed.

Lemma byte_bit_high (c : ascii) (n : Z) : 8 <= n -> Z.testbit (byte_val c) n = false.
Proof.
  intros Hn. apply (testbit_high _ 8); [|lia]. apply byte_val_range.
Qed.

(** Bit [m] of a [w]-bit field placed at position [k]. *)
Lemma field_bit (x w k m : Z) :
  0 <= w -> 0 <= k -> 0 <= m ->
  Z.testbit (Z.shiftl (Z.land x (Z.ones w)) k) m =
  (k <=? m) && (m <? k + w) && Z.testbit x (m - k).
Proof.
  intros Hw Hk Hm. rewrite Z.shiftl_spec by lia.
  destruct (Z.leb_spec k m) as [Hle|Hlt].
  - rewrite Z.land_spec, Z.testbit_ones_nonneg by lia.
    replace (m - k <? w) with (m <? k + w).
    + simpl. apply andb_comm.
    + destruct (Z.ltb_spec m (k + w)); symmetry;
        [apply Z.ltb_lt | apply Z.ltb_ge]; lia.
  - rewrite Z.testbit_neg_r by lia. reflexivity.
Qed.

Lemma mask_bit (x w m : Z) :
  0 <= w -> 0 <= m ->
  Z.testbit (Z.land x (Z.ones w)) m = (m <? w) && Z.testbit x m.
Proof.
  intros Hw Hm. rewrite Z.land_spec, Z.testbit_ones_nonneg by lia. apply andb_comm.
Qed.

(** The bits of a quantum assembled from four masked sextets. *)
Lemma quantum_bits (x0 x1 x2 x3 m : Z) :
  0 <= m ->
  Z.testbit (quantum (Z.land x0 63) (Z.land x1 63) (Z.land x2 63) (Z.land x3 63)) m =
  if m <? 6 then Z.testbit x3 m
  else if m <? 12 then Z.testbit x2 (m - 6)
  else if m <? 18 then Z.testbit x1 (m - 12)
  else if m <? 24 then Z.testbit x0 (m - 18)
  else false.
Proof.
  intros Hm. unfold quantum. change 63 with (Z.ones 6).
  rewrite !Z.lor_spec, !field_bit, mask_bit by lia.
  destruct (Z.ltb_spec m 6); [decide_cmp; simpl; reflexivity|].
  destruct (Z.ltb_spec m 12); [decide_cmp; simpl; apply orb_false_r|].
  destruct (Z.ltb_spec m 18); [decide_cmp; simpl; rewrite !orb_false_r; reflexivity|].
  destruct (Z.ltb_spec m 24); decide_cmp; simpl; rewrite ?orb_false_r; reflexivity.
Qed.

Lemma val3_bits (a b c : ascii) (m : Z) :
  0 <= m ->
  Z.testbit (val3 a b c) m =
  Z.testbit (byte_val a) (m - 16) || Z.testbit (byte_val b) (m - 8)
  || Z.testbit (byte_val c) m.
Proof.
  intros Hm. unfold val3. rewrite !Z.lor_spec, !Z.shiftl_spec by lia. reflexivity.
Qed.

(** Bit [n] of the octet at position [k] of a quantum [q]. *)
Lemma octet_bits (q k n : Z) :
  0 <= k -> 0 <= n ->
  Z.testbit (Z.land (Z.shiftr q k) 255) n = (n <? 8) && Z.testbit q (n + k).
Proof.
  intros Hk Hn. change 255 with (Z.ones 8).
  rewrite mask_bit, Z.shiftr_spec by lia. reflexivity.
Qed.

Lemma octet_16 (a b c : ascii) (i2 i3 : Z) :
  let v := val3 a b c in
  octet (quantum (Z.land (Z.shiftr v 18) 63) (Z.land (Z.shiftr v 12) 63) (Z.land i2 63) (Z.land i3 63)) 16 = a.
Proof.
  intros v; subst v. unfold octet.
  replace (Z.land _ 255) with (byte_val a); [apply byte_of_val|].
  apply Z.bits_inj'; intros n Hn.
  rewrite octet_bits, quantum_bits by lia.
  destruct (Z.ltb_spec n 8) as [H8|H8].
  - decide_cmp. simpl.
    destruct (Z.ltb_spec (n + 16) 18);
      rewrite Z.shiftr_spec, val3_bits by lia;
      rewrite (byte_bit_high b), (byte_bit_high c) by lia;
      rewrite !orb_false_r; f_equal; lia.
  - simpl. apply byte_bit_high; lia.
Qed.

Lemma octet_8 (a b c : ascii) (i3 : Z) :
  let v := val3 a b c in
  octet (quantum (Z.land (Z.shiftr v 18) 63) (Z.land (Z.shiftr v 12) 63) (Z.land (Z.shiftr v 6) 63) (Z.land i3 63)) 8 = b.
Proof.
  intros v; subst v. unfold octet.
  replace (Z.land _ 255) with (byte_val b); [apply byte_of_val|].
  apply Z.bits_inj'; intros n Hn.
  rewrite octet_bits, quantum_bits by lia.
  destruct (Z.ltb_spec n 8) as [H8|H8].
  - decide_cmp. simpl.
    destruct (Z.ltb_spec (n + 8) 12);
      rewrite Z.shiftr_spec, val3_bits by lia;
      rewrite (byte_bit_high c), (Z.testbit_neg_r (byte_val a)) by lia;
      rewrite !orb_false_r; simpl; f_equal; lia.
  - simpl. apply byte_bit_high; lia.
Qed.

Lemma octet_0 (a b c : ascii) :
  let v := val3 a b c in
  octet (quantum (Z.land (Z.shiftr v 18) 63) (Z.land (Z.shiftr v 12) 63) (Z.land (Z.shiftr v 6) 63) (Z.land (Z.shiftr v 0) 63)) 0 = c.
Proof.
  intros v; subst v. unfold octet.
  replace (Z.land _ 255) with (byte_val c); [apply byte_of_val|].
  apply Z.bits_inj'; intros n Hn.
  rewrite octet_bits, quantum_bits by lia.
  destruct (Z.ltb_spec n 8) as [H8|H8].
  - simpl. rewrite Z.add_0_r.
    destruct (Z.ltb_spec n 6); [|decide_cmp];
      rewrite Z.shiftr_spec, val3_bits by lia;
      rewrite (Z.testbit_neg_r (byte_val a)), (Z.testbit_neg_r (byte_val b)) by lia;
      simpl; f_equal; lia.
  - simpl. apply byte_bit_high; lia.
Qed.

Lemma EncodeToString_empty (s : string) : EncodeToString s = ""%string -> s = ""%string.
Proof.
  destruct s as [|a [|b [|c rest]]]; simpl; intros H; [reflexivity | discriminate ..].
Qed.

Lemma group3_val (a b c : ascii) :
  Z.lor (Z.lor (uint_shl (byte_val a) 16) (uint_shl (byte_val b) 8)) (byte_val c)
  = val3 a b c.
Proof. rewrite !uint_shl_byte by lia. reflexivity. Qed.

Lemma group2_val (a b : ascii) :
  Z.lor (uint_shl (byte_val a) 16) (uint_shl (byte_val b) 8) = val3 a b zero.
Proof.
  rewrite !uint_shl_byte by lia. unfold val3.
  change (byte_val zero) with 0. rewrite Z.lor_0_r. reflexivity.
Qed.

Lemma group1_val (a : ascii) : uint_shl (byte_val a) 16 = val3 a zero zero.
Proof.
  rewrite uint_shl_byte by lia. unfold val3.
  change (byte_val zero) with 0. rewrite Z.shiftl_0_l, !Z.lor_0_r. reflexivity.
Qed.

Lemma decode_full_group (a b c : ascii) :
  let v := val3 a b c in
  decode_full (sextet v 18) (sextet v 12) (sextet v 6) (sextet v 0)
  = Some (String a (String b (String c ""))).
Proof.
  intros v. unfold decode_full. rewrite !sextet_decode.
  fold (Z.land (Z.shiftr v 18) 63) (Z.land (Z.shiftr v 12) 63) (Z.land (Z.shiftr v 6) 63) (Z.land (Z.shiftr v 0) 63).
  cbv zeta. subst v.
  rewrite (octet_16 a b c (Z.shiftr (val3 a b c) 6) (Z.shiftr (val3 a b c) 0)).
  rewrite (octet_8 a b c (Z.shiftr (val3 a b c) 0)).
  rewrite (octet_0 a b c). reflexivity.
Qed.

Lemma decode_last_group3 (a b c : ascii) :
  let v := val3 a b c in
  decode_last (sextet v 18) (sextet v 12) (sextet v 6) (sextet v 0)
  = Some (String a (String b (String c ""))).
Proof.
  intros v. unfold decode_last. rewrite sextet_not_pad. apply decode_full_group.
Qed.

Lemma decode_last_group2 (a b : ascii) :
  let v := val3 a b zero in
  decode_last (sextet v 18) (sextet v 12) (sextet v 6) padChar
  = Some (String a (String b "")).
Proof.
  intros v. unfold decode_last. rewrite Ascii.eqb_refl, sextet_not_pad, !sextet_decode.
  cbv zeta. subst v.
  pose proof (octet_16 a b zero (Z.shiftr (val3 a b zero) 6) 0) as H16.
  pose proof (octet_8 a b zero 0) as H8.
  cbv zeta in H16, H8. change (Z.land 0 63) with 0 in H16, H8.
  rewrite H16, H8. reflexivity.
Qed.

Lemma decode_last_group1 (a : ascii) :
  let v := val3 a zero zero in
  decode_last (sextet v 18) (sextet v 12) padChar padChar = Some (String a "").
Proof.
  intros v. unfold decode_last. rewrite Ascii.eqb_refl, !sextet_decode.
  subst v.
  pose proof (octet_16 a zero zero 0 0) as H16.
  cbv zeta in H16. change (Z.land 0 63) with 0 in H16.
  rewrite H16. reflexivity.
Qed.

(** Decoding what the encoder wrote gives the bytes back. *)
Lemma DecodeString_EncodeToString (s : string) :
  DecodeString (EncodeToString s) = Some s.
Proof.
  induction s as [| a | a b | a b c rest IH] using string_ind3.
  - reflexivity.
  - cbn [EncodeToString]. rewrite group1_val. cbn [DecodeString].
    apply decode_last_group1.
  - cbn [EncodeToString]. rewrite group2_val. cbn [DecodeString].
    apply decode_last_group2.
  - cbn [EncodeToString]. rewrite group3_val. cbn [DecodeString].
    destruct (EncodeToString rest) as [|e es] eqn:Hrest.
    + apply EncodeToString_empty in Hrest. subst rest. apply decode_last_group3.
    + rewrite decode_full_group, IH. reflexivity.
Qed.

(** No character of an encoding is a question mark. *)
Lemma EncodeToString_no_qmark (s : string) :
  textproto.mem_char "?" (EncodeToString s) = false.
Proof.
  induction s as [| a | a b | a b c rest IH] using string_ind3;
    cbn [EncodeToString textproto.mem_char];
    rewrite ?(Ascii.eqb_sym "?"%char), ?sextet_not_qmark, ?IH; reflexivity.
Qed.

Lemma EncodeToString_text (s : string) : is_base64_text (EncodeToString s) = true.
Proof.
  induction s as [| a | a b | a b c rest IH] using string_ind3;
    cbn [EncodeToString is_base64_text];
    rewrite ?sextet_in_table, ?IH, ?Ascii.eqb_refl, ?orb_true_r; reflexivity.
Qed.

End base64_facts.

(** ** Encoded words *)

Lemma cut_append (t r : string) :
  textproto.mem_char "?" t = false ->
  rfc2047.cut (t ++ String "?" r) = Some (t, r).
Proof.
  induction t as [|c t IH]; cbn [rfc2047.cut textproto.mem_char append]; intros H.
  - reflexivity.
  - apply orb_false_iff in H. destruct H as [Hc Ht].
    rewrite Ascii.eqb_sym, Hc, (IH Ht). reflexivity.
Qed.

Lemma decode_word_encodeHeader (s : string) :
  rfc2047.decode_word (encodeHeader s) = Some s.
Proof.
  unfold encodeHeader. cbn [append rfc2047.decode_word].
  cbn -[base64.DecodeString base64.EncodeToString rfc2047.cut].
  cbn [rfc2047.cut Ascii.eqb Bool.eqb].
  rewrite cut_append by apply base64_facts.EncodeToString_no_qmark.
  cbn. apply base64_facts.DecodeString_EncodeToString.
Qed.

(** ** The multipart writers in the heap *)

Lemma nth_app_here {A} (l r : list A) (x d : A) :
  nth (List.length l) (l ++ x :: r)%list d = x.
Proof. induction l as [|y l IH]; simpl; auto. Qed.

Lemma update_app_here {A} (l r : list A) (x y : A) :
  update (List.length l) y (l ++ x :: r)%list = (l ++ y :: r)%list.
Proof. induction l as [|z l IH]; simpl; congruence. Qed.

Lemma nth_app_next {A} (l : list A) (x y d : A) :
  nth (List.length (l ++ [x])%list) ((l ++ [x]) ++ [y])%list d = y.
Proof. apply nth_app_here. Qed.

Lemma update_app_next {A} (l : list A) (x y z : A) :
  update (List.length (l ++ [x])%list) z ((l ++ [x]) ++ [y])%list = ((l ++ [x]) ++ [z])%list.
Proof. apply update_app_here. Qed.

(** ** One step of each operation *)

Lemma bind_inr {A B} (m : M A) (k : A -> M B) (st st' : State) (a : A) :
  m st = (inr a, st') -> bind m k st = k a st'.
Proof. intros H. unfold bind. rewrite H. reflexivity. Qed.

Lemma bind_inl {A B} (m : M A) (k : A -> M B) (st st' : State) (e : error) :
  m st = (inl e, st') -> bind m k st = (inl e, st').
Proof. intros H. unfold bind. rewrite H. reflexivity. Qed.

Section Steps.

Variable env : Env.
Variables (cfg : EmailConfig) (pos : nat) (tr : list event) (B : string).
Variable ws : list multipart.Writer.

Lemma gets_step {A} (f : State -> A) (st : State) : gets f st = (inr (f st), st).
Proof. reflexivity. Qed.

Lemma Buffer_new_step :
  Buffer_new (mkState cfg pos tr B ws) = (inr tt, mkState cfg pos tr "" ws).
Proof. reflexivity. Qed.

Lemma Buffer_Write_step (p : string) :
  Buffer_Write p (mkState cfg pos tr B ws) = (inr tt, mkState cfg pos tr (B ++ p) ws).
Proof. reflexivity. Qed.

Lemma NewWriter_step :
  NewWriter env (mkState cfg pos tr B ws)
  = (inr (List.length ws),
     mkState cfg (pos + 30) tr B (ws ++ [mkWriter (boundary_at env pos) None 0])).
Proof. reflexivity. Qed.

Lemma Writer_Boundary_step (w : nat) (wr : multipart.Writer) :
  nth w ws default_Writer = wr ->
  Writer_Boundary w (mkState cfg pos tr B ws)
  = (inr (multipart.boundary wr), mkState cfg pos tr B ws).
Proof. intros <-. reflexivity. Qed.

Lemma Writer_CreatePart_step (w : nat) (b : string) (lp : option nat) (n : nat)
    (header : textproto.MIMEHeader) :
  nth w ws default_Writer = mkWriter b lp n ->
  Writer_CreatePart w header (mkState cfg pos tr B ws)
  = (inr {| multipart.mw := w; multipart.number := S n |},
     mkState cfg pos tr
       (B ++ (match lp with
              | Some _ => CRLF ++ "--" ++ b ++ CRLF
              | None => "--" ++ b ++ CRLF
              end ++ header_lines (sort_keys header) ++ CRLF))
       (update w (mkWriter b (Some (S n)) (S n)) ws)).
Proof.
  intros H. unfold Writer_CreatePart, bind, get_Writer, gets, mkState.
  cbn [writers]. rewrite H. reflexivity.
Qed.

Lemma part_Write_step (w n : nat) (b : string) (k : nat) (d : string) :
  nth w ws default_Writer = mkWriter b (Some n) k ->
  part_Write {| multipart.mw := w; multipart.number := n |} d (mkState cfg pos tr B ws)
  = (inr (String.length d), mkState cfg pos tr (B ++ d) ws).
Proof.
  intros H. unfold part_Write, bind, get_Writer, gets, mkState.
  cbn [writers multipart.mw multipart.number]. rewrite H.
  cbn [multipart.lastpart mkWriter]. rewrite Nat.eqb_refl. reflexivity.
Qed.

Lemma Writer_Close_step (w : nat) (b : string) (lp : option nat) (n : nat) :
  nth w ws default_Writer = mkWriter b lp n ->
  Writer_Close w (mkState cfg pos tr B ws)
  = (inr tt,
     mkState cfg pos tr (B ++ CRLF ++ "--" ++ b ++ "--" ++ CRLF)
       (update w (mkWriter b None n) ws)).
Proof.
  intros H. unfold Writer_Close, bind, get_Writer, gets, mkState.
  cbn [writers]. rewrite H. reflexivity.
Qed.

Lemma ReadFile_call_ok (name data : string) :
  os_ReadFile env name = inr data ->
  ReadFile_call env name (mkState cfg pos tr B ws)
  = (inr data, mkState cfg pos (tr ++ [ReadFile name]) B ws).
Proof.
  intros H. unfold ReadFile_call, bind, emit, modify, mkState.
  cbn. rewrite H. reflexivity.
Qed.

Lemma ReadFile_call_err (name : string) (e : error) :
  os_ReadFile env name = inl e ->
  ReadFile_call env name (mkState cfg pos tr B ws)
  = (inl e, mkState cfg pos (tr ++ [ReadFile name]) B ws).
Proof.
  intros H. unfold ReadFile_call, bind, emit, modify, mkState.
  cbn. rewrite H. reflexivity.
Qed.

End Steps.

(** ** The blocks of the builder *)

Arguments boundary_at : simpl never.
Arguments createEmailMessage : simpl never.

Ltac step L := erewrite bind_inr by (eapply L); cbv beta.
Ltac step_with L T := erewrite bind_inr by (eapply L; T); cbv beta.

Lemma text_header_lines :
  header_lines (sort_keys (textproto.Set_ textproto.empty "Content-Type"
                             "text/plain; charset=UTF-8"))
  = "Content-Type: text/plain; charset=UTF-8" ++ CRLF.
Proof. reflexivity. Qed.

Lemma html_header_lines :
  header_lines (sort_keys (textproto.Set_ textproto.empty "Content-Type"
                             "text/html; charset=UTF-8"))
  = "Content-Type: text/html; charset=UTF-8" ++ CRLF.
Proof. reflexivity. Qed.

Lemma attachment_sort_keys (ty disposition : string) :
  sort_keys
    (textproto.Set_
       (textproto.Set_ (textproto.Set_ textproto.empty "Content-Type" ty)
          "Content-Disposition" disposition)
       "Content-Transfer-Encoding" "base64")
  = [ ("Content-Disposition", [disposition]);
      ("Content-Transfer-Encoding", ["base64"]);
      ("Content-Type", [ty]) ].
Proof. reflexivity. Qed.

Lemma attachment_header_lines (ty disposition : string) :
  header_lines
    (sort_keys
       (textproto.Set_
          (textproto.Set_ (textproto.Set_ textproto.empty "Content-Type" ty)
             "Content-Disposition" disposition)
          "Content-Transfer-Encoding" "base64"))
  = "Content-Disposition: " ++ disposition ++ CRLF ++
    "Content-Transfer-Encoding: base64" ++ CRLF ++
    "Content-Type: " ++ ty ++ CRLF.
Proof.
  rewrite attachment_sort_keys. cbn [header_lines header_values].
  rewrite ?append_assoc. cbn [append CRLF]. rewrite ?append_assoc, ?append_nil_r.
  reflexivity.
Qed.

Ltac same_bytes :=
  rewrite ?text_header_lines, ?html_header_lines, ?attachment_header_lines;
  unfold message_of, message_fields, alternative_part, text_part, html_part,
    attachment_part;
  cbn [rfc2046.render rfc2046.render_fields alternative_part text_part html_part
       attachment_part message_of message_fields app];
  rewrite ?append_assoc; cbn [append CRLF]; rewrite ?append_assoc;
  reflexivity.

Section Builder.

Variable env : Env.
Variables (cfg : EmailConfig) (pos : nat) (tr : list event) (B : string).
Variable ws : list multipart.Writer.

Lemma body_both_run (b body htmlBody : string) :
  nonempty body = true -> nonempty htmlBody = true ->
  createEmailMessage_body env (List.length ws) b body htmlBody
    (mkState cfg pos tr B (ws ++ [mkWriter b None 0]))
  = (inr tt,
     mkState cfg (pos + 30) tr
       (B ++ "--" ++ b ++ CRLF ++
        rfc2046.render (alternative_part (boundary_at env pos) body htmlBody (Some "")))
       (ws ++ [mkWriter b None 0; mkWriter (boundary_at env pos) None 2])).
Proof.
  intros Hb Hh. unfold createEmailMessage_body. rewrite Hb, Hh. cbn [andb].
  step NewWriter_step.
  step_with Writer_Boundary_step ltac:(apply nth_app_next).
  cbn [multipart.boundary mkWriter].
  step Buffer_Write_step.
  step_with Writer_CreatePart_step ltac:(apply nth_app_next).
  rewrite update_app_next.
  step_with part_Write_step ltac:(apply nth_app_next).
  step_with Writer_CreatePart_step ltac:(apply nth_app_next).
  rewrite update_app_next.
  step_with part_Write_step ltac:(apply nth_app_next).
  erewrite Writer_Close_step by apply nth_app_next.
  rewrite update_app_next, <- app_assoc. cbn [app].
  f_equal. f_equal. same_bytes.
Qed.

Lemma body_plain_run (b body htmlBody : string) :
  nonempty body = true -> nonempty htmlBody = false ->
  createEmailMessage_body env (List.length ws) b body htmlBody
    (mkState cfg pos tr B (ws ++ [mkWriter b None 0]))
  = (inr tt,
     mkState cfg pos tr
       (B ++ "--" ++ b ++ CRLF ++ rfc2046.render (text_part body))
       (ws ++ [mkWriter b (Some 1) 1])).
Proof.
  intros Hb Hh. unfold createEmailMessage_body. rewrite Hb, Hh. cbn [andb].
  step_with Writer_CreatePart_step ltac:(apply nth_app_here).
  rewrite update_app_here.
  step_with part_Write_step ltac:(apply nth_app_here).
  unfold ret. f_equal. f_equal. same_bytes.
Qed.

Lemma body_html_run (b body htmlBody : string) :
  nonempty body = false -> nonempty htmlBody = true ->
  createEmailMessage_body env (List.length ws) b body htmlBody
    (mkState cfg pos tr B (ws ++ [mkWriter b None 0]))
  = (inr tt,
     mkState cfg pos tr
       (B ++ "--" ++ b ++ CRLF ++ rfc2046.render (html_part htmlBody))
       (ws ++ [mkWriter b (Some 1) 1])).
Proof.
  intros Hb Hh. unfold createEmailMessage_body. rewrite Hb, Hh. cbn [andb].
  step_with Writer_CreatePart_step ltac:(apply nth_app_here).
  rewrite update_app_here.
  step_with part_Write_step ltac:(apply nth_app_here).
  unfold ret. f_equal. f_equal. same_bytes.
Qed.

Lemma body_none_run (w : nat) (b body htmlBody : string) (st : State) :
  nonempty body = false -> nonempty htmlBody = false ->
  createEmailMessage_body env w b body htmlBody st = (inl EmptyBody, st).
Proof.
  intros Hb Hh. unfold createEmailMessage_body. rewrite Hb, Hh. reflexivity.
Qed.

Lemma attachment_none_run (w : nat) (path : string) (st : State) :
  nonempty path = false ->
  createEmailMessage_attachment env w path st = (inr tt, st).
Proof. intros H. unfold createEmailMessage_attachment. rewrite H. reflexivity. Qed.

Lemma attachment_err_run (w : nat) (path : string) (e : error) :
  nonempty path = true -> os_ReadFile env path = inl e ->
  createEmailMessage_attachment env w path (mkState cfg pos tr B ws)
  = (inl e, mkState cfg pos (tr ++ [ReadFile path]) B ws).
Proof.
  intros Hp He. unfold createEmailMessage_attachment. rewrite Hp.
  erewrite bind_inl by (apply ReadFile_call_err; exact He). reflexivity.
Qed.

Lemma attachment_ok_run (path data b : string) (lp : option nat) (n : nat)
    (rest : list multipart.Writer) :
  nonempty path = true -> os_ReadFile env path = inr data ->
  createEmailMessage_attachment env (List.length ws) path
    (mkState cfg pos tr B (ws ++ mkWriter b lp n :: rest))
  = (inr tt,
     mkState cfg pos (tr ++ [ReadFile path])
       (B ++ match lp with Some _ => CRLF | None => "" end ++ "--" ++ b ++ CRLF ++
        rfc2046.render
          (attachment_part (mime.TypeByExtension (mimeTypes env) (filepath.Ext path))
             path (base64.EncodeToString data)))
       (ws ++ mkWriter b (Some (S n)) (S n) :: rest)).
Proof.
  intros Hp Hd. unfold createEmailMessage_attachment. rewrite Hp.
  step_with ReadFile_call_ok ltac:(exact Hd).
  step_with Writer_CreatePart_step ltac:(apply nth_app_here).
  rewrite update_app_here.
  step_with part_Write_step ltac:(apply nth_app_here).
  unfold ret. f_equal. f_equal. destruct lp; same_bytes.
Qed.

Lemma close_run (b : string) (lp : option nat) (n : nat) (rest : list multipart.Writer) :
  (Writer_Close (List.length ws) ;;; Buffer_Bytes)
    (mkState cfg pos tr B (ws ++ mkWriter b lp n :: rest))
  = (inr (B ++ CRLF ++ "--" ++ b ++ "--" ++ CRLF),
     mkState cfg pos tr (B ++ CRLF ++ "--" ++ b ++ "--" ++ CRLF)
       (ws ++ mkWriter b None n :: rest)).
Proof.
  step_with Writer_Close_step ltac:(apply nth_app_here).
  rewrite update_app_here. reflexivity.
Qed.

End Builder.

(** ** The builder as a function of what it reads *)

Section Run.

Variable env : Env.

Ltac finish_run Hp Hpre Hb Hh :=
  cbn [fst snd trace emailConfig mkState];
  unfold built, build_events, body_parts;
  rewrite ?Hp, ?Hpre, ?Hb, ?Hh; cbn [andb orb negb];
  repeat split;
  first [ solve [ rewrite ?app_nil_r; reflexivity ]
        | solve [ f_equal; same_bytes ] ].

(** Result, trace and configuration after a build, for every input and every
    state. *)
Lemma createEmailMessage_run (subject body htmlBody attachmentPath : string)
    (to : slice) (st : State) :
  let r := createEmailMessage env subject body htmlBody attachmentPath to st in
  fst r = built (emailConfig st)
            (boundary_at env (rand_read st)) (boundary_at env (rand_read st + 30))
            (os_ReadFile env attachmentPath)
            (mime.TypeByExtension (mimeTypes env) (filepath.Ext attachmentPath))
            subject body htmlBody attachmentPath (elems to)
  /\ trace (snd r) = (trace st ++ build_events (emailConfig st) body htmlBody attachmentPath)%list
  /\ emailConfig (snd r) = emailConfig st.
Proof.
  destruct st as [cfg pos tr B ws]. fold (mkState cfg pos tr B ws).
  cbn [emailConfig rand_read trace mkState]. unfold createEmailMessage.
  erewrite bind_inr by (eapply gets_step). cbv beta. cbn [emailConfig mkState].
  destruct (nonempty attachmentPath) eqn:Hp;
    destruct (strings.HasPrefix attachmentPath (AttachmentPathPrefix cfg ++ "/")) eqn:Hpre;
    cbn [andb negb].
  2:{ unfold fail. finish_run Hp Hpre Hp Hp. }
  all: fold (mkState cfg pos tr B ws);
    step Buffer_new_step; step NewWriter_step;
    step_with Writer_Boundary_step ltac:(apply nth_app_here);
    cbn [multipart.boundary mkWriter];
    step Buffer_Write_step;
    destruct (nonempty body) eqn:Hb; destruct (nonempty htmlBody) eqn:Hh.
  all: try (erewrite bind_inl by (apply body_none_run; assumption);
            finish_run Hp Hpre Hb Hh).
  all: first [ step_with body_both_run ltac:(assumption)
             | step_with body_plain_run ltac:(assumption)
             | step_with body_html_run ltac:(assumption) ].
  all: try (step_with attachment_none_run ltac:(assumption);
            rewrite close_run; finish_run Hp Hpre Hb Hh).
  all: destruct (os_ReadFile env attachmentPath) as [e|data] eqn:Hfile.
  all: try (erewrite bind_inl by (apply attachment_err_run; eassumption);
            finish_run Hp Hpre Hb Hh).
  all: step_with attachment_ok_run ltac:(eassumption);
    rewrite close_run; finish_run Hp Hpre Hb Hh.
Qed.

End Run.

(** ** The dispatcher *)

Lemma elems_append_slice (to : slice) (x : string) :
  elems (fst (append_slice to x)) = (elems to ++ [x])%list /\
  elems (snd (append_slice to x)) = elems to.
Proof. unfold append_slice. destruct (spare to); split; reflexivity. Qed.

Section Dispatch.

Variable env : Env.

(** The result and the trace of a send, by the outcome of the build. *)
Lemma EmailSender_run (subject body htmlBody attachmentPath : string)
    (to : slice) (st : State) :
  let cfg := emailConfig st in
  let r := EmailSender env subject body htmlBody attachmentPath to st in
  match fst (createEmailMessage env subject body htmlBody attachmentPath to st) with
  | inl e =>
      fst r = inr false /\
      trace (snd r) = (trace st ++ build_events cfg body htmlBody attachmentPath
                       ++ [LogError "Error creating message:" e])%list
  | inr msg =>
      let answer := smtp_SendMail env (send_addr cfg) (auth_of cfg) (EmailAddress cfg)
                      (envelope cfg (elems to)) msg in
      fst r = inr (match answer with None => true | Some _ => false end) /\
      trace (snd r) = (trace st ++ build_events cfg body htmlBody attachmentPath
                       ++ SendMail (send_addr cfg) (auth_of cfg) (EmailAddress cfg)
                            (envelope cfg (elems to)) msg
                          :: match answer with
                             | None => []
                             | Some err => [LogError "Error sending email:" err]
                             end)%list
  end.
Proof.
  intros cfg r. subst r cfg.
  pose proof (createEmailMessage_run env subject body htmlBody attachmentPath to st) as H1.
  cbv zeta in H1. destruct H1 as (H1r & _ & _).
  assert (Hpair : forall recipients to',
             (recipients, to') =
             (if nonempty (BccAddressToSendCopy (emailConfig st))
              then append_slice to (BccAddressToSendCopy (emailConfig st))
              else (to, to)) ->
             elems recipients = envelope (emailConfig st) (elems to)
             /\ elems to' = elems to).
  { intros recipients to' Heq. unfold envelope.
    destruct (nonempty (BccAddressToSendCopy (emailConfig st))).
    - pose proof (elems_append_slice to (BccAddressToSendCopy (emailConfig st))) as H.
      rewrite <- Heq in H. exact H.
    - injection Heq as -> ->. rewrite app_nil_r. auto. }
  unfold EmailSender, emailAuth, try, LogError_call, SendMail_call, emit, modify,
    bind, gets, ret.
  destruct (if nonempty (BccAddressToSendCopy (emailConfig st))
            then append_slice to (BccAddressToSendCopy (emailConfig st))
            else (to, to)) as [recipients to'] eqn:Heq.
  destruct (Hpair recipients to' eq_refl) as [Hrcpt Hto].
  pose proof (createEmailMessage_run env subject body htmlBody attachmentPath to' st) as H2.
  cbv zeta in H2. rewrite Hto, <- H1r in H2. destruct H2 as (H2r & H2t & H2c).
  destruct (createEmailMessage env subject body htmlBody attachmentPath to' st)
    as [res st1] eqn:Hrun.
  cbn [fst snd] in H2r, H2t, H2c. rewrite <- H2r.
  destruct res as [e|msg]; cbn [fst snd trace set_trace].
  - rewrite H2t, <- app_assoc. auto.
  - cbn [emailConfig set_trace]. rewrite H2c, H2t, Hrcpt.
    fold (send_addr (emailConfig st)). fold (auth_of (emailConfig st)).
    destruct (smtp_SendMail env _ _ _ _ msg) as [err|];
      cbn [fst snd trace set_trace]; rewrite <- !app_assoc; auto.
Qed.

End Dispatch.

(** ** The models on known values *)

(** The test vectors of RFC 4648, section 10. *)
Example base64_vectors :
  map base64.EncodeToString ["f"; "fo"; "foo"; "foob"; "fooba"; "foobar"]
  = ["Zg=="; "Zm8="; "Zm9v"; "Zm9vYg=="; "Zm9vYmE="; "Zm9vYmFy"].
Proof. reflexivity. Qed.

Example filepath_values :
  map filepath.Base ["storage/notes.txt"; "a/b/"; "///"; "notes"]
  = ["notes.txt"; "b"; "/"; "notes"]
  /\ filepath.Base "" = "."
  /\ map filepath.Ext ["storage/notes.txt"; "a.b/c"; "a/b.tar.gz"; "notes"]
     = [".txt"; ""; ".gz"; ""].
Proof. repeat split; reflexivity. Qed.

Example canonical_keys :
  map textproto.CanonicalMIMEHeaderKey
    ["Content-Type"; "content-transfer-encoding"; "Content-Disposition"]
  = ["Content-Type"; "Content-Transfer-Encoding"; "Content-Disposition"].
Proof. reflexivity. Qed.

(** The scenario of the specification: subject Hello, plain body only, no
    attachment, one recipient. The message read back has the To field of that
    recipient and a single text/plain part holding the body. *)
Example build_plain_message :
  exists msg,
    fst (createEmailMessage sample_env "Hello" "Hi there" "" "" (slice_of ["a@x.com"])
           sample_state) = inr msg
    /\ read 2 msg
       = Some (Multipart
                 [ ("MIME-Version", "1.0");
                   ("From", "=?UTF-8?B?TWU=?= <me@x.com>");
                   ("To", "a@x.com");
                   ("Subject", "=?UTF-8?B?SGVsbG8=?=");
                   ("Reply-To", "reply@x.com") ]
                 "mixed" "000102030405060708090a0b0c0d0e0f101112131415161718191a1b1c1d"
                 [Leaf [("Content-Type", "text/plain; charset=UTF-8")] "Hi there"]
                 (Some "")).
Proof. eexists. split; vm_compute; reflexivity. Qed.

(** Both bodies and an attachment: the message read back is the tree the
    builder is expected to write. *)
Example build_full_message :
  exists msg,
    fst (createEmailMessage sample_env "Hello" "Hi there" "<b>Hi</b>" "storage/notes.txt"
           (slice_of ["a@x.com"; "b@x.com"]) sample_state) = inr msg
    /\ read 3 msg
       = Some (Multipart (message_fields sample_config "Hello" ["a@x.com"; "b@x.com"])
                 "mixed" (boundary_at sample_env 0)
                 [ alternative_part (boundary_at sample_env 30) "Hi there" "<b>Hi</b>" None;
                   attachment_part "text/plain; charset=utf-8" "storage/notes.txt"
                     "c29tZSBub3Rlcw==" ]
                 (Some "")).
Proof. eexists. split; vm_compute; reflexivity. Qed.

(* ################################################################## *)
(** * The properties of the specification *)

Lemma HasPrefix_true (s p : string) :
  strings.HasPrefix s p = true -> exists rest, s = p ++ rest.
Proof.
  unfold strings.HasPrefix. revert s.
  induction p as [|c p IH]; intros s H.
  - exists s. reflexivity.
  - destruct s as [|d s]; [discriminate|]. cbn [String.prefix] in H.
    destruct (ascii_dec c d) as [->|]; [|discriminate].
    destruct (IH s H) as [rest ->]. exists rest. reflexivity.
Qed.

Lemma HasPrefix_append (p rest : string) : strings.HasPrefix (p ++ rest) p = true.
Proof.
  unfold strings.HasPrefix. induction p as [|c p IH]; cbn [append String.prefix].
  - destruct rest; reflexivity.
  - destruct (ascii_dec c c); [exact IH|congruence].
Qed.

Lemma nonempty_true (s : string) : s <> "" -> nonempty s = true.
Proof. destruct s; [congruence|reflexivity]. Qed.

Lemma new_events_app (st st' : State) (evs : list event) :
  trace st' = (trace st ++ evs)%list -> new_events st st' = evs.
Proof.
  intros H. unfold new_events. rewrite H.
  rewrite skipn_app, skipn_all, Nat.sub_diag. reflexivity.
Qed.

(** A path that fails the guard is refused before anything else happens. *)
Lemma guard_rejects (env : Env) (subject body htmlBody attachmentPath : string)
    (to : slice) (st : State) :
  path_allowed (emailConfig st) attachmentPath = false ->
  createEmailMessage env subject body htmlBody attachmentPath to st
  = (inl (InvalidAttachmentPath (AttachmentPathPrefix (emailConfig st) ++ "/")), st).
Proof.
  unfold path_allowed. intros H. apply negb_false_iff in H.
  unfold createEmailMessage, bind, gets, fail. rewrite H. reflexivity.
Qed.

(** C4. For every non-empty attachmentPath that does not start with the
    configured attachmentRootPrefix followed by a slash, the build fails with
    InvalidAttachmentPath; the state is left as it was, so the file system has
    not been read (nor anything else called). *)
Theorem invalid_attachment_path_rejected (env : Env)
    (subject body htmlBody attachmentPath : string) (to : slice) (st : State) :
  attachmentPath <> "" ->
  (forall rest, attachmentPath <> (AttachmentPathPrefix (emailConfig st) ++ "/") ++ rest) ->
  let r := createEmailMessage env subject body htmlBody attachmentPath to st in
  fst r = inl (InvalidAttachmentPath (AttachmentPathPrefix (emailConfig st) ++ "/"))
  /\ snd r = st
  /\ new_events st (snd r) = [].
Proof.
  intros Hne Hpre r. subst r. rewrite guard_rejects.
  - cbn [fst snd]. repeat split. apply new_events_app. symmetry. apply app_nil_r.
  - unfold path_allowed. rewrite (nonempty_true _ Hne).
    destruct (strings.HasPrefix attachmentPath _) eqn:Hp; [|reflexivity].
    apply HasPrefix_true in Hp. destruct Hp as [rest Hrest]. destruct (Hpre rest Hrest).
Qed.

Lemma invalid_attachment_path_rejected_witness :
  let r := createEmailMessage sample_env "Hello" "Hi there" "" "etc/passwd"
             (slice_of ["a@x.com"]) sample_state in
  fst r = inl (InvalidAttachmentPath "storage/") /\ snd r = sample_state
  /\ new_events sample_state (snd r) = [].
Proof.
  apply (invalid_attachment_path_rejected sample_env "Hello" "Hi there" ""
           "etc/passwd" (slice_of ["a@x.com"]) sample_state).
  - discriminate.
  - intros rest. cbn. discriminate.
Defined.

(** C10. With an empty AttachmentPathPrefix the required prefix is a single
    slash: every non-empty attachmentPath that does not begin with a slash is
    refused with the invalid-path error. *)
Theorem empty_prefix_rejects_relative_paths (env : Env)
    (subject body htmlBody attachmentPath : string) (to : slice) (st : State) :
  AttachmentPathPrefix (emailConfig st) = "" ->
  attachmentPath <> "" ->
  (forall rest, attachmentPath <> String "/" rest) ->
  createEmailMessage env subject body htmlBody attachmentPath to st
  = (inl (InvalidAttachmentPath "/"), st).
Proof.
  intros Hcfg Hne Hrel. rewrite guard_rejects.
  - rewrite Hcfg. reflexivity.
  - unfold path_allowed. rewrite Hcfg.
    destruct attachmentPath as [|c path]; [congruence|].
    unfold strings.HasPrefix. cbn [append String.prefix nonempty String.eqb negb andb].
    destruct (ascii_dec "/" c) as [<-|]; [|reflexivity].
    destruct (Hrel path eq_refl).
Qed.

Lemma empty_prefix_rejects_relative_paths_witness :
  createEmailMessage sample_env "Hello" "Hi there" "" "notes.txt" (slice_of ["a@x.com"])
    (set_emailConfig
       {| EmailAddress := "me@x.com"; Password := "secret"; Host := "smtp.x.com";
          Port := "587"; SenderName := "Me"; ReplyTo := "reply@x.com";
          AttachmentPathPrefix := ""; BccAddressToSendCopy := "" |} sample_state)
  = (inl (InvalidAttachmentPath "/"),
     set_emailConfig
       {| EmailAddress := "me@x.com"; Password := "secret"; Host := "smtp.x.com";
          Port := "587"; SenderName := "Me"; ReplyTo := "reply@x.com";
          AttachmentPathPrefix := ""; BccAddressToSendCopy := "" |} sample_state).
Proof.
  apply empty_prefix_rejects_relative_paths.
  - reflexivity.
  - discriminate.
  - intros rest. discriminate.
Defined.

(** C7. For every subject string the encoded header is
    [=?UTF-8?B?<base64>?=], its payload being text over the base64 alphabet,
    and decoding it as an RFC 2047 encoded word yields the subject itself. *)
Theorem encodeHeader_roundtrip (subject : string) :
  (exists payload,
      encodeHeader subject = "=?UTF-8?B?" ++ payload ++ "?="
      /\ base64.is_base64_text payload = true
      /\ base64.DecodeString payload = Some subject)
  /\ rfc2047.decode_word (encodeHeader subject) = Some subject.
Proof.
  split.
  - exists (base64.EncodeToString subject). repeat split.
    + apply base64_facts.EncodeToString_text.
    + apply base64_facts.DecodeString_EncodeToString.
  - apply decode_word_encodeHeader.
Qed.

Lemma path_allowed_iff (cfg : EmailConfig) (attachmentPath : string) :
  path_allowed cfg attachmentPath = true <->
  attachmentPath = "" \/
  exists rest, attachmentPath = (AttachmentPathPrefix cfg ++ "/") ++ rest.
Proof.
  unfold path_allowed. split.
  - intros H. destruct attachmentPath as [|c p]; [left; reflexivity|right].
    cbn [nonempty String.eqb negb andb] in H.
    rewrite negb_involutive in H. apply HasPrefix_true in H. exact H.
  - intros [->|[rest ->]]; [reflexivity|].
    rewrite HasPrefix_append. cbn [negb]. rewrite andb_false_r. reflexivity.
Qed.

Lemma body_parts_some (altBoundary body htmlBody : string) (attached : bool) :
  body <> "" \/ htmlBody <> "" ->
  exists bodies, body_parts altBoundary body htmlBody attached = Some bodies.
Proof.
  intros H. unfold body_parts.
  destruct (nonempty body) eqn:Hb, (nonempty htmlBody) eqn:Hh; cbn [andb]; eauto.
  destruct H as [H|H]; apply nonempty_true in H; congruence.
Qed.

Lemma built_attached (cfg : EmailConfig) (boundary altBoundary contentType : string)
    (subject body htmlBody attachmentPath data : string) (to : list string)
    (bodies : list entity) :
  path_allowed cfg attachmentPath = true ->
  nonempty attachmentPath = true ->
  body_parts altBoundary body htmlBody true = Some bodies ->
  built cfg boundary altBoundary (inr data) contentType subject body htmlBody
    attachmentPath to
  = inr (message_of cfg subject to boundary
           (bodies ++ [attachment_part contentType attachmentPath
                         (base64.EncodeToString data)])).
Proof.
  intros Hok Hne Hbodies. unfold built. unfold path_allowed in Hok.
  apply negb_true_iff in Hok. rewrite Hok, Hne, Hbodies. reflexivity.
Qed.

Lemma built_message (cfg : EmailConfig) (boundary altBoundary : string)
    (file : error + string) (contentType subject body htmlBody attachmentPath : string)
    (to : list string) (msg : string) :
  built cfg boundary altBoundary file contentType subject body htmlBody attachmentPath to
  = inr msg ->
  exists parts, msg = message_of cfg subject to boundary parts.
Proof.
  unfold built. intros H.
  destruct (nonempty attachmentPath && negb _); [discriminate|].
  destruct (body_parts _ _ _ _) as [bodies|]; [|discriminate].
  destruct (nonempty attachmentPath).
  - destruct file as [e|data]; [discriminate|]. injection H as <-. eauto.
  - injection H as <-. eauto.
Qed.

(** C3, as the code has it. When both bodies are empty and the attachment
    path passes the prefix check (it is empty or starts with the prefix and a
    slash), the build fails with EmptyBody whatever the other inputs are, and
    no collaborator is called. *)
Theorem empty_bodies_rejected (env : Env) (subject attachmentPath : string)
    (to : slice) (st : State) :
  attachmentPath = "" \/
  (exists rest, attachmentPath = (AttachmentPathPrefix (emailConfig st) ++ "/") ++ rest) ->
  let r := createEmailMessage env subject "" "" attachmentPath to st in
  fst r = inl EmptyBody /\ new_events st (snd r) = [].
Proof.
  intros Hpath r. subst r.
  apply path_allowed_iff in Hpath. unfold path_allowed in Hpath.
  apply negb_true_iff in Hpath.
  destruct (createEmailMessage_run env subject "" "" attachmentPath to st) as (Hr & Ht & _).
  split.
  - rewrite Hr. unfold built. rewrite Hpath. reflexivity.
  - apply new_events_app. rewrite Ht. unfold build_events.
    cbn [nonempty String.eqb negb orb]. rewrite andb_false_r. reflexivity.
Qed.

Lemma empty_bodies_rejected_witness :
  let r := createEmailMessage sample_env "Hello" "" "" "storage/notes.txt"
             (slice_of ["a@x.com"]) sample_state in
  fst r = inl EmptyBody /\ new_events sample_state (snd r) = [].
Proof.
  apply (empty_bodies_rejected sample_env "Hello" "storage/notes.txt"
           (slice_of ["a@x.com"]) sample_state).
  right. exists "notes.txt". reflexivity.
Defined.

(** C3, as stated, fails: with both bodies empty and an attachment path
    outside the prefix the error is the invalid-path one. *)
Lemma empty_bodies_other_error :
  fst (createEmailMessage sample_env "Hello" "" "" "etc/passwd"
         (slice_of ["a@x.com"]) sample_state)
  = inl (InvalidAttachmentPath "storage/")
  /\ fst (createEmailMessage sample_env "Hello" "" "" "etc/passwd"
            (slice_of ["a@x.com"]) sample_state)
     <> inl EmptyBody.
Proof.
  rewrite guard_rejects by reflexivity. split; [reflexivity|]. cbn. discriminate.
Qed.

(** C1. Which of the two bodies are non-empty selects the body part, in
    three exclusive cases. Both: one multipart/alternative section with a
    boundary of its own (drawn after the outer one) holding exactly the
    text/plain part and then the text/html part. Only the plain body: the
    text/plain part alone, directly under multipart/mixed. Only the HTML body:
    the text/html part alone. This holds for every subject, recipient list and
    attachment path whose attachment parts [atts] can be made. *)
Theorem body_part_selection (env : Env) (subject body htmlBody attachmentPath : string)
    (to : slice) (st : State) (atts : list entity) :
  attachmentPath = "" \/
  (exists rest, attachmentPath = (AttachmentPathPrefix (emailConfig st) ++ "/") ++ rest) ->
  attachment_parts env attachmentPath = inr atts ->
  let boundary := boundary_at env (rand_read st) in
  let altBoundary := boundary_at env (rand_read st + 30) in
  let message parts :=
    inr (message_of (emailConfig st) subject (elems to) boundary (parts ++ atts)) in
  let r := fst (createEmailMessage env subject body htmlBody attachmentPath to st) in
  (body <> "" -> htmlBody <> "" ->
   r = message
         [Multipart [] "alternative" altBoundary
            [Leaf [("Content-Type", "text/plain; charset=UTF-8")] body;
             Leaf [("Content-Type", "text/html; charset=UTF-8")] htmlBody]
            (if nonempty attachmentPath then None else Some "")])
  /\ (body <> "" -> htmlBody = "" ->
      r = message [Leaf [("Content-Type", "text/plain; charset=UTF-8")] body])
  /\ (body = "" -> htmlBody <> "" ->
      r = message [Leaf [("Content-Type", "text/html; charset=UTF-8")] htmlBody]).
Proof.
  intros Hpath Hatt boundary altBoundary message r. subst r message.
  apply path_allowed_iff in Hpath. unfold path_allowed in Hpath.
  apply negb_true_iff in Hpath.
  destruct (createEmailMessage_run env subject body htmlBody attachmentPath to st)
    as (Hr & _ & _).
  rewrite Hr. fold boundary altBoundary. unfold built, body_parts, attachment_parts in *.
  rewrite Hpath.
  repeat split; intros Hb Hh;
    try apply nonempty_true in Hb; try apply nonempty_true in Hh; subst;
    rewrite ?Hb, ?Hh; cbn [nonempty String.eqb negb andb];
    destruct (nonempty attachmentPath);
    try destruct (os_ReadFile env attachmentPath) as [e|data];
    try discriminate; injection Hatt as <-; reflexivity.
Qed.

Lemma body_part_selection_witness :
  fst (createEmailMessage sample_env "Hello" "Hi there" "<b>Hi</b>" "storage/notes.txt"
         (slice_of ["a@x.com"; "b@x.com"]) sample_state)
  = inr (message_of sample_config "Hello" ["a@x.com"; "b@x.com"]
           (boundary_at sample_env 0)
           [Multipart [] "alternative" (boundary_at sample_env 30)
              [Leaf [("Content-Type", "text/plain; charset=UTF-8")] "Hi there";
               Leaf [("Content-Type", "text/html; charset=UTF-8")] "<b>Hi</b>"]
              None;
            attachment_part "text/plain; charset=utf-8" "storage/notes.txt"
              (base64.EncodeToString "some notes")]).
Proof.
  refine (proj1 (body_part_selection sample_env "Hello" "Hi there" "<b>Hi</b>"
                   "storage/notes.txt" (slice_of ["a@x.com"; "b@x.com"]) sample_state
                   [attachment_part "text/plain; charset=utf-8" "storage/notes.txt"
                      (base64.EncodeToString "some notes")] _ _) _ _).
  - right. exists "notes.txt". reflexivity.
  - reflexivity.
  - discriminate.
  - discriminate.
Defined.

(** A build with a readable attachment: the message ends with the attachment
    part, after the body parts. *)
Lemma build_with_attachment (env : Env) (subject body htmlBody attachmentPath data : string)
    (to : slice) (st : State) :
  attachmentPath <> "" ->
  (exists rest, attachmentPath = (AttachmentPathPrefix (emailConfig st) ++ "/") ++ rest) ->
  body <> "" \/ htmlBody <> "" ->
  os_ReadFile env attachmentPath = inr data ->
  exists bodies,
    fst (createEmailMessage env subject body htmlBody attachmentPath to st)
    = inr (message_of (emailConfig st) subject (elems to)
             (boundary_at env (rand_read st))
             (bodies ++
              [attachment_part
                 (mime.TypeByExtension (mimeTypes env) (filepath.Ext attachmentPath))
                 attachmentPath (base64.EncodeToString data)])).
Proof.
  intros Hne Hpre Hbody Hfile.
  destruct (body_parts_some (boundary_at env (rand_read st + 30)) body htmlBody true Hbody)
    as [bodies Hbodies].
  exists bodies.
  destruct (createEmailMessage_run env subject body htmlBody attachmentPath to st)
    as (Hr & _ & _).
  rewrite Hr, Hfile. apply built_attached.
  - apply path_allowed_iff. right. exact Hpre.
  - apply nonempty_true, Hne.
  - exact Hbodies.
Qed.

(** C6. For every readable attachment file, the built message ends with an
    attachment part whose body, decoded from base64, is the byte sequence the
    file system returned for the file. *)
Theorem attachment_base64_roundtrip (env : Env)
    (subject body htmlBody attachmentPath data : string) (to : slice) (st : State) :
  attachmentPath <> "" ->
  (exists rest, attachmentPath = (AttachmentPathPrefix (emailConfig st) ++ "/") ++ rest) ->
  body <> "" \/ htmlBody <> "" ->
  os_ReadFile env attachmentPath = inr data ->
  exists bodies contentType content,
    fst (createEmailMessage env subject body htmlBody attachmentPath to st)
    = inr (message_of (emailConfig st) subject (elems to)
             (boundary_at env (rand_read st))
             (bodies ++ [attachment_part contentType attachmentPath content]))
    /\ field_value "Content-Transfer-Encoding"
         [ ("Content-Disposition",
            "attachment; filename=" ++
            String DQUOTE (filepath.Base attachmentPath ++ String DQUOTE ""));
           ("Content-Transfer-Encoding", "base64");
           ("Content-Type", contentType) ] = Some "base64"
    /\ base64.DecodeString content = Some data.
Proof.
  intros Hne Hpre Hbody Hfile.
  destruct (build_with_attachment env subject body htmlBody attachmentPath data to st
              Hne Hpre Hbody Hfile) as [bodies Hmsg].
  exists bodies, (mime.TypeByExtension (mimeTypes env) (filepath.Ext attachmentPath)),
    (base64.EncodeToString data).
  repeat split.
  - exact Hmsg.
  - apply base64_facts.DecodeString_EncodeToString.
Qed.

Lemma attachment_base64_roundtrip_witness :
  exists bodies contentType content,
    fst (createEmailMessage sample_env "Hello" "Hi there" "" "storage/notes.txt"
           (slice_of ["a@x.com"]) sample_state)
    = inr (message_of sample_config "Hello" ["a@x.com"] (boundary_at sample_env 0)
             (bodies ++ [attachment_part contentType "storage/notes.txt" content]))
    /\ field_value "Content-Transfer-Encoding"
         [ ("Content-Disposition",
            "attachment; filename=" ++
            String DQUOTE (filepath.Base "storage/notes.txt" ++ String DQUOTE ""));
           ("Content-Transfer-Encoding", "base64");
           ("Content-Type", contentType) ] = Some "base64"
    /\ base64.DecodeString content = Some "some notes".
Proof.
  apply (attachment_base64_roundtrip sample_env "Hello" "Hi there" "" "storage/notes.txt"
           "some notes" (slice_of ["a@x.com"]) sample_state).
  - discriminate.
  - exists "notes.txt". reflexivity.
  - left. discriminate.
  - reflexivity.
Defined.

(** C8, as the code has it. For an attachment whose extension is not in the
    MIME-type table the attachment part carries a Content-Type field whose
    value is empty: what the lookup returns is written as it is. *)
Theorem unknown_extension_empty_content_type (env : Env)
    (subject body htmlBody attachmentPath data : string) (to : slice) (st : State) :
  attachmentPath <> "" ->
  (exists rest, attachmentPath = (AttachmentPathPrefix (emailConfig st) ++ "/") ++ rest) ->
  body <> "" \/ htmlBody <> "" ->
  os_ReadFile env attachmentPath = inr data ->
  mimeTypes env (filepath.Ext attachmentPath) = None ->
  exists bodies,
    fst (createEmailMessage env subject body htmlBody attachmentPath to st)
    = inr (message_of (emailConfig st) subject (elems to)
             (boundary_at env (rand_read st))
             (bodies ++
              [attachment_part "" attachmentPath (base64.EncodeToString data)]))
    /\ content_type (attachment_part "" attachmentPath (base64.EncodeToString data))
       = Some "".
Proof.
  intros Hne Hpre Hbody Hfile Hext.
  destruct (build_with_attachment env subject body htmlBody attachmentPath data to st
              Hne Hpre Hbody Hfile) as [bodies Hmsg].
  exists bodies. unfold mime.TypeByExtension in Hmsg. rewrite Hext in Hmsg.
  split; [exact Hmsg | reflexivity].
Qed.

Lemma unknown_extension_empty_content_type_witness :
  exists bodies,
    fst (createEmailMessage sample_env "Hello" "Hi there" "" "storage/report.zzz"
           (slice_of ["a@x.com"]) sample_state)
    = inr (message_of sample_config "Hello" ["a@x.com"] (boundary_at sample_env 0)
             (bodies ++
              [attachment_part "" "storage/report.zzz" (base64.EncodeToString "hello")]))
    /\ content_type (attachment_part "" "storage/report.zzz"
                       (base64.EncodeToString "hello"))
       = Some "".
Proof.
  apply (unknown_extension_empty_content_type sample_env "Hello" "Hi there" ""
           "storage/report.zzz" "hello" (slice_of ["a@x.com"]) sample_state).
  - discriminate.
  - exists "report.zzz". reflexivity.
  - left. discriminate.
  - reflexivity.
  - reflexivity.
Defined.

(** C8, as stated, fails: for the extension [.zzz], which the table does not
    know, the message is built; read back, its second part is the attachment
    and the value of its Content-Type field is empty; and no octet-stream type
    occurs anywhere in the message. *)
Lemma unknown_extension_no_octet_stream :
  mimeTypes sample_env (filepath.Ext "storage/report.zzz") = None
  /\ exists msg fields boundary body attachment,
       fst (createEmailMessage sample_env "Hello" "Hi there" "" "storage/report.zzz"
              (slice_of ["a@x.com"]) sample_state) = inr msg
       /\ read 3 msg = Some (Multipart fields "mixed" boundary [body; attachment] (Some ""))
       /\ content_type attachment = Some ""
       /\ strings.Contains msg "octet-stream" = false.
Proof.
  split; [reflexivity|]. do 5 eexists.
  split; [vm_compute; reflexivity|].
  split; [vm_compute; reflexivity|].
  split; vm_compute; reflexivity.
Qed.

Section RandomBytes.

Variable env : Env.

Ltac finish_rand Hp Hpre Hb Hh :=
  cbn [snd rand_read mkState];
  unfold path_allowed; rewrite ?Hp, ?Hpre, ?Hb, ?Hh; cbn [andb orb negb];
  lia.

(** The random bytes read by a build. *)
Lemma createEmailMessage_rand (subject body htmlBody attachmentPath : string)
    (to : slice) (st : State) :
  rand_read (snd (createEmailMessage env subject body htmlBody attachmentPath to st))
  = rand_read st
    + if path_allowed (emailConfig st) attachmentPath
      then if nonempty body && nonempty htmlBody then 60 else 30
      else 0.
Proof.
  destruct st as [cfg pos tr B ws]. fold (mkState cfg pos tr B ws).
  cbn [emailConfig rand_read mkState]. unfold createEmailMessage.
  erewrite bind_inr by (eapply gets_step). cbv beta. cbn [emailConfig mkState].
  destruct (nonempty attachmentPath) eqn:Hp;
    destruct (strings.HasPrefix attachmentPath (AttachmentPathPrefix cfg ++ "/")) eqn:Hpre;
    cbn [andb negb].
  2:{ unfold fail. finish_rand Hp Hpre Hp Hp. }
  all: fold (mkState cfg pos tr B ws);
    step Buffer_new_step; step NewWriter_step;
    step_with Writer_Boundary_step ltac:(apply nth_app_here);
    cbn [multipart.boundary mkWriter];
    step Buffer_Write_step;
    destruct (nonempty body) eqn:Hb; destruct (nonempty htmlBody) eqn:Hh.
  all: try (erewrite bind_inl by (apply body_none_run; assumption);
            finish_rand Hp Hpre Hb Hh).
  all: first [ step_with body_both_run ltac:(assumption)
             | step_with body_plain_run ltac:(assumption)
             | step_with body_html_run ltac:(assumption) ].
  all: try (step_with attachment_none_run ltac:(assumption);
            rewrite close_run; finish_rand Hp Hpre Hb Hh).
  all: destruct (os_ReadFile env attachmentPath) as [e|data] eqn:Hfile.
  all: try (erewrite bind_inl by (apply attachment_err_run; eassumption);
            finish_rand Hp Hpre Hb Hh).
  all: step_with attachment_ok_run ltac:(eassumption);
    rewrite close_run; finish_rand Hp Hpre Hb Hh.
Qed.

End RandomBytes.

Lemma map_seq_ext {A} (f g : nat -> A) (p q n : nat) :
  (forall i, i < n -> f (p + i) = g (q + i)) ->
  map f (seq p n) = map g (seq q n).
Proof.
  revert p q. induction n as [|n IH]; intros p q H; cbn [seq map].
  - reflexivity.
  - f_equal.
    + specialize (H 0 (Nat.lt_0_succ n)). rewrite !Nat.add_0_r in H. exact H.
    + apply IH. intros i Hi. specialize (H (S i) (proj1 (Nat.succ_lt_mono i n) Hi)).
      rewrite !Nat.add_succ_r in H. exact H.
Qed.

(** The result of a build does not depend on the nested boundary unless both
    bodies are given, nor on any boundary when the path is refused. *)
Lemma built_boundaries (cfg : EmailConfig) (b1 ab1 b2 ab2 : string)
    (file : error + string) (contentType subject body htmlBody attachmentPath : string)
    (to : list string) :
  (path_allowed cfg attachmentPath = true -> b1 = b2) ->
  (path_allowed cfg attachmentPath = true ->
   nonempty body && nonempty htmlBody = true -> ab1 = ab2) ->
  built cfg b1 ab1 file contentType subject body htmlBody attachmentPath to
  = built cfg b2 ab2 file contentType subject body htmlBody attachmentPath to.
Proof.
  unfold built, body_parts, path_allowed. intros Hb Hab.
  destruct (nonempty attachmentPath && negb _); cbn [negb] in *; [reflexivity|].
  rewrite (Hb eq_refl).
  destruct (nonempty body && nonempty htmlBody).
  - rewrite (Hab eq_refl eq_refl). reflexivity.
  - reflexivity.
Qed.

(** C9, as the code has it. The result of a build is a function of the
    input, the configuration, the file system's answer for the attachment,
    the content type found for its extension, and the random bytes the build
    reads for its boundaries: none when the path is refused, thirty, or sixty
    when both bodies are given. Two builds that agree on all of these (the
    random bytes being compared over exactly the bytes read) return the same
    bytes, or the same error; and each reads exactly that many random
    bytes. *)
Theorem build_deterministic_given_boundaries (env1 env2 : Env)
    (subject body htmlBody attachmentPath : string) (to : slice) (st1 st2 : State) :
  emailConfig st1 = emailConfig st2 ->
  os_ReadFile env1 attachmentPath = os_ReadFile env2 attachmentPath ->
  mimeTypes env1 (filepath.Ext attachmentPath) = mimeTypes env2 (filepath.Ext attachmentPath) ->
  (forall i, i < random_bytes_drawn (emailConfig st1) body htmlBody attachmentPath ->
     rand_Reader env1 (rand_read st1 + i) = rand_Reader env2 (rand_read st2 + i)) ->
  let r1 := createEmailMessage env1 subject body htmlBody attachmentPath to st1 in
  let r2 := createEmailMessage env2 subject body htmlBody attachmentPath to st2 in
  fst r1 = fst r2
  /\ rand_read (snd r1)
     = rand_read st1 + random_bytes_drawn (emailConfig st1) body htmlBody attachmentPath
  /\ rand_read (snd r2)
     = rand_read st2 + random_bytes_drawn (emailConfig st1) body htmlBody attachmentPath.
Proof.
  intros Hcfg Hfile Hmime Hrand r1 r2. subst r1 r2.
  split; [|split].
  - destruct (createEmailMessage_run env1 subject body htmlBody attachmentPath to st1)
      as (H1 & _ & _).
    destruct (createEmailMessage_run env2 subject body htmlBody attachmentPath to st2)
      as (H2 & _ & _).
    rewrite H1, H2, <- Hcfg, Hfile. unfold mime.TypeByExtension. rewrite Hmime.
    unfold random_bytes_drawn in Hrand.
    apply built_boundaries.
    + intros Hok. rewrite Hok in Hrand.
      unfold boundary_at. f_equal. apply map_seq_ext. intros i Hi. apply Hrand.
      destruct (nonempty body && nonempty htmlBody); lia.
    + intros Hok Hboth. rewrite Hok, Hboth in Hrand.
      unfold boundary_at. f_equal. apply map_seq_ext. intros i Hi.
      rewrite <- !Nat.add_assoc. apply Hrand. lia.
  - apply createEmailMessage_rand.
  - rewrite Hcfg. apply createEmailMessage_rand.
Qed.

Lemma build_deterministic_given_boundaries_witness :
  let r1 := createEmailMessage sample_env "Hello" "Hi there" "" "storage/notes.txt"
              (slice_of ["a@x.com"]) sample_state in
  let r2 := createEmailMessage sample_env_other "Hello" "Hi there" "" "storage/notes.txt"
              (slice_of ["a@x.com"]) sample_state in
  fst r1 = fst r2
  /\ rand_read (snd r1)
     = rand_read sample_state
       + random_bytes_drawn (emailConfig sample_state) "Hi there" "" "storage/notes.txt"
  /\ rand_read (snd r2)
     = rand_read sample_state
       + random_bytes_drawn (emailConfig sample_state) "Hi there" "" "storage/notes.txt".
Proof.
  apply build_deterministic_given_boundaries.
  - reflexivity.
  - reflexivity.
  - reflexivity.
  - intros i Hi.
    change (random_bytes_drawn (emailConfig sample_state) "Hi there" ""
              "storage/notes.txt") with 30 in Hi.
    cbn [sample_env sample_env_other rand_Reader sample_state rand_read Nat.add].
    do 30 (destruct i as [|i]; [reflexivity|]). lia.
Defined.

(** C9, as stated, fails: two builds of the same input, one after the other,
    under one configuration and one file system, return different bytes,
    because each draws fresh random bytes for its boundary. *)
Lemma successive_builds_differ :
  let build := createEmailMessage sample_env "Hello" "Hi there" "" ""
                 (slice_of ["a@x.com"]) in
  let r1 := build sample_state in
  let r2 := build (snd r1) in
  emailConfig (snd r1) = emailConfig sample_state
  /\ exists m1 m2, fst r1 = inr m1 /\ fst r2 = inr m2 /\ m1 <> m2.
Proof.
  cbv zeta. split; [reflexivity|].
  eexists. eexists. split; [vm_compute; reflexivity|].
  split; [vm_compute; reflexivity|].
  apply String.eqb_neq. vm_compute. reflexivity.
Qed.

(** ** Claims on the dispatcher *)

Lemma build_events_not_SendMail (cfg : EmailConfig) (body htmlBody attachmentPath : string)
    (ev : event) :
  In ev (build_events cfg body htmlBody attachmentPath) -> is_SendMail ev = false.
Proof.
  unfold build_events. destruct (_ && _); cbn [In]; intros H.
  - destruct H as [<-|[]]. reflexivity.
  - destruct H.
Qed.

(** The message built does not depend on the BCC address configured. *)
Lemma build_ignores_bcc (env : Env) (subject body htmlBody attachmentPath : string)
    (to : slice) (st : State) (other : string) :
  fst (createEmailMessage env subject body htmlBody attachmentPath to
         (set_emailConfig (with_bcc other (emailConfig st)) st))
  = fst (createEmailMessage env subject body htmlBody attachmentPath to st).
Proof.
  destruct (createEmailMessage_run env subject body htmlBody attachmentPath to st)
    as (H1 & _ & _).
  destruct (createEmailMessage_run env subject body htmlBody attachmentPath to
              (set_emailConfig (with_bcc other (emailConfig st)) st)) as (H2 & _ & _).
  rewrite H1, H2. reflexivity.
Qed.

(** C2. With a BCC address configured, whatever is handed to the transport
    has as recipients the addresses of [to] followed by the BCC address, and
    as message one whose To field is the addresses of [to] joined by commas;
    the transport is handed exactly that whenever the build succeeds; and the
    message is the same whatever the BCC address is, so that address is not
    written into it. *)
Theorem bcc_in_envelope_not_in_header (env : Env)
    (subject body htmlBody attachmentPath : string) (to : slice) (st : State) :
  BccAddressToSendCopy (emailConfig st) <> "" ->
  let cfg := emailConfig st in
  let bcc := BccAddressToSendCopy cfg in
  let r := EmailSender env subject body htmlBody attachmentPath to st in
  (forall addr a from rcpts msg,
      In (SendMail addr a from rcpts msg) (new_events st (snd r)) ->
      rcpts = (elems to ++ [bcc])%list
      /\ exists boundary parts,
           msg = render (Multipart (message_fields cfg subject (elems to)) "mixed"
                           boundary parts (Some "")))
  /\ (forall msg,
        fst (createEmailMessage env subject body htmlBody attachmentPath to st) = inr msg ->
        In (SendMail (send_addr cfg) (auth_of cfg) (EmailAddress cfg)
              (elems to ++ [bcc])%list msg)
           (new_events st (snd r)))
  /\ field_value "To" (message_fields cfg subject (elems to))
     = Some (strings.Join (elems to) ", ")
  /\ (forall other,
        fst (createEmailMessage env subject body htmlBody attachmentPath to
               (set_emailConfig (with_bcc other cfg) st))
        = fst (createEmailMessage env subject body htmlBody attachmentPath to st)).
Proof.
  intros Hbcc cfg bcc r.
  assert (Henv : envelope cfg (elems to) = (elems to ++ [bcc])%list).
  { unfold envelope, bcc, cfg. rewrite (nonempty_true _ Hbcc). reflexivity. }
  pose proof (EmailSender_run env subject body htmlBody attachmentPath to st) as Hrun.
  pose proof (createEmailMessage_run env subject body htmlBody attachmentPath to st) as Hb.
  cbv zeta in Hrun, Hb. destruct Hb as (Hres & _ & _).
  fold cfg r in Hrun. rewrite Henv in Hrun.
  assert (Hsent : forall addr a from rcpts msg,
             In (SendMail addr a from rcpts msg) (new_events st (snd r)) ->
             rcpts = (elems to ++ [bcc])%list
             /\ fst (createEmailMessage env subject body htmlBody attachmentPath to st)
                = inr msg).
  { intros addr a from rcpts msg Hin.
    destruct (fst (createEmailMessage env subject body htmlBody attachmentPath to st))
      as [e|built_msg]; destruct Hrun as [_ Htrace];
      apply new_events_app in Htrace; rewrite Htrace in Hin;
      apply in_app_or in Hin; destruct Hin as [Hin|Hin];
      try (apply build_events_not_SendMail in Hin; discriminate).
    - destruct Hin as [Hin|[]]. discriminate.
    - destruct Hin as [Hin|Hin].
      + injection Hin as _ _ _ <- <-. auto.
      + destruct (smtp_SendMail env _ _ _ _ built_msg); cbn [In] in Hin.
        * destruct Hin as [Hin|[]]. discriminate.
        * destruct Hin. }
  assert (Hcall : forall msg,
             fst (createEmailMessage env subject body htmlBody attachmentPath to st)
             = inr msg ->
             In (SendMail (send_addr cfg) (auth_of cfg) (EmailAddress cfg)
                   (elems to ++ [bcc])%list msg)
                (new_events st (snd r))).
  { intros msg Hmsg. rewrite Hmsg in Hrun. destruct Hrun as [_ Htrace].
    apply new_events_app in Htrace. rewrite Htrace.
    apply in_or_app. right. left. reflexivity. }
  split; [|split; [|split]].
  - intros addr a from rcpts msg Hin.
    destruct (Hsent addr a from rcpts msg Hin) as [-> Hmsg]. split; [reflexivity|].
    rewrite Hres in Hmsg. apply built_message in Hmsg. destruct Hmsg as [parts ->].
    exists (boundary_at env (rand_read st)), parts. reflexivity.
  - exact Hcall.
  - reflexivity.
  - intros other. apply build_ignores_bcc.
Qed.

Lemma bcc_in_envelope_not_in_header_witness :
  In (SendMail "smtp.x.com:587" (PlainAuth "" "me@x.com" "secret" "smtp.x.com") "me@x.com"
        ["a@x.com"; "b@x.com"; "bcc@x.com"]
        (message_of sample_config "Hello" ["a@x.com"; "b@x.com"] (boundary_at sample_env 0)
           [text_part "Hi there"]))
     (new_events sample_state
        (snd (EmailSender sample_env "Hello" "Hi there" "" ""
                (slice_of ["a@x.com"; "b@x.com"]) sample_state)))
  /\ field_value "To" (message_fields sample_config "Hello" ["a@x.com"; "b@x.com"])
     = Some "a@x.com, b@x.com".
Proof.
  pose proof (bcc_in_envelope_not_in_header sample_env "Hello" "Hi there" "" ""
                (slice_of ["a@x.com"; "b@x.com"]) sample_state) as H.
  cbv zeta in H. destruct H as (_ & Hsend & Hto & _).
  - discriminate.
  - split; [|exact Hto]. apply Hsend. vm_compute. reflexivity.
Defined.

(** C5. A send always returns; when the build fails it returns false and the
    transport is not called; and it returns true exactly when the build
    succeeds and the transport, called with the message, reports no error. *)
Theorem build_failure_no_send (env : Env)
    (subject body htmlBody attachmentPath : string) (to : slice) (st : State) :
  let cfg := emailConfig st in
  let build := fst (createEmailMessage env subject body htmlBody attachmentPath to st) in
  let r := EmailSender env subject body htmlBody attachmentPath to st in
  (exists ok, fst r = inr ok)
  /\ (forall e, build = inl e ->
        fst r = inr false
        /\ forall ev, In ev (new_events st (snd r)) -> is_SendMail ev = false)
  /\ (fst r = inr true <->
      exists msg,
        build = inr msg
        /\ smtp_SendMail env (send_addr cfg) (auth_of cfg) (EmailAddress cfg)
             (envelope cfg (elems to)) msg = None).
Proof.
  intros cfg build r.
  pose proof (EmailSender_run env subject body htmlBody attachmentPath to st) as Hrun.
  cbv zeta in Hrun. fold cfg build r in Hrun.
  destruct build as [e|msg].
  - destruct Hrun as [Hres Htrace]. apply new_events_app in Htrace.
    repeat split.
    + eauto.
    + exact Hres.
    + intros ev Hev. rewrite Htrace in Hev. apply in_app_or in Hev.
      destruct Hev as [Hev|[<-|[]]].
      * apply build_events_not_SendMail in Hev. exact Hev.
      * reflexivity.
    + rewrite Hres. discriminate.
    + intros (msg & Hmsg & _). discriminate.
  - destruct Hrun as [Hres _].
    repeat split.
    + eauto.
    + discriminate.
    + discriminate.
    + intros Htrue. exists msg. split; [reflexivity|].
      rewrite Hres in Htrue. destruct (smtp_SendMail env _ _ _ _ msg); congruence.
    + intros (msg' & [= <-] & Hsend). rewrite Hres, Hsend. reflexivity.
Qed.

Lemma build_failure_no_send_witness :
  fst (EmailSender sample_env "Hello" "" "" "" (slice_of ["a@x.com"]) sample_state)
  = inr false
  /\ forall ev,
       In ev (new_events sample_state
                (snd (EmailSender sample_env "Hello" "" "" "" (slice_of ["a@x.com"])
                        sample_state))) ->
       is_SendMail ev = false.
Proof.
  apply (proj1 (proj2 (build_failure_no_send sample_env "Hello" "" "" ""
                         (slice_of ["a@x.com"]) sample_state)) EmptyBody).
  vm_compute. reflexivity.
Defined.

(* ################################################################## *)
(** * Further properties of the code *)

(** ** Outcomes of a build *)

Lemma nonempty_false (s : string) : nonempty s = false -> s = "".
Proof. destruct s; cbn; [reflexivity|discriminate]. Qed.

Lemma path_refused_iff (cfg : EmailConfig) (attachmentPath : string) :
  path_allowed cfg attachmentPath = false <->
  attachmentPath <> "" /\
  forall rest, attachmentPath <> (AttachmentPathPrefix cfg ++ "/") ++ rest.
Proof.
  split.
  - intros H. split.
    + intros ->. discriminate.
    + intros rest Heq.
      assert (Hok : path_allowed cfg attachmentPath = true)
        by (apply path_allowed_iff; right; eauto).
      congruence.
  - intros [Hne Hpre]. destruct (path_allowed cfg attachmentPath) eqn:Hok; [|reflexivity].
    apply path_allowed_iff in Hok. destruct Hok as [->|[rest Hrest]].
    + congruence.
    + destruct (Hpre rest Hrest).
Qed.

Lemma body_present_iff (body htmlBody : string) :
  nonempty body || nonempty htmlBody = true <-> body <> "" \/ htmlBody <> "".
Proof.
  destruct body, htmlBody; cbn; split; intros H; try reflexivity; try discriminate;
    try (left; discriminate); try (right; discriminate).
  destruct H; congruence.
Qed.

(** The outcome of a build by its three checks, in the order the code makes
    them. *)
Lemma built_by_checks (cfg : EmailConfig) (boundary altBoundary : string)
    (file : error + string) (contentType subject body htmlBody attachmentPath : string)
    (to : list string) :
  let r := built cfg boundary altBoundary file contentType subject body htmlBody
             attachmentPath to in
  match path_allowed cfg attachmentPath, nonempty body || nonempty htmlBody,
        nonempty attachmentPath, file with
  | false, _, _, _ => r = inl (InvalidAttachmentPath (AttachmentPathPrefix cfg ++ "/"))
  | true, false, _, _ => r = inl EmptyBody
  | true, true, true, inl e => r = inl e
  | true, true, _, _ => exists msg, r = inr msg
  end.
Proof.
  unfold built, path_allowed, body_parts.
  destruct (nonempty attachmentPath && negb _); cbn [negb]; [reflexivity|].
  destruct (nonempty body), (nonempty htmlBody); cbn [andb orb];
    destruct (nonempty attachmentPath); try reflexivity;
    try destruct file; eauto.
Qed.

(** X1. A build returns a message exactly when the attachment path is empty
    or has the configured prefix and names a readable file, and at least one
    of the two bodies is non-empty. Subject and recipients play no part. *)
Theorem build_succeeds_iff (env : Env) (subject body htmlBody attachmentPath : string)
    (to : slice) (st : State) :
  (exists msg,
      fst (createEmailMessage env subject body htmlBody attachmentPath to st) = inr msg)
  <->
  (attachmentPath = "" \/
   ((exists rest, attachmentPath = (AttachmentPathPrefix (emailConfig st) ++ "/") ++ rest)
    /\ exists data, os_ReadFile env attachmentPath = inr data))
  /\ (body <> "" \/ htmlBody <> "").
Proof.
  destruct (createEmailMessage_run env subject body htmlBody attachmentPath to st)
    as (Hr & _ & _).
  rewrite Hr.
  pose proof (built_by_checks (emailConfig st) (boundary_at env (rand_read st))
                (boundary_at env (rand_read st + 30)) (os_ReadFile env attachmentPath)
                (mime.TypeByExtension (mimeTypes env) (filepath.Ext attachmentPath))
                subject body htmlBody attachmentPath (elems to)) as Hc.
  cbv zeta in Hc.
  destruct (path_allowed (emailConfig st) attachmentPath) eqn:Hok.
  - destruct (nonempty body || nonempty htmlBody) eqn:Hb.
    + apply body_present_iff in Hb.
      destruct (nonempty attachmentPath) eqn:Hp.
      * apply path_allowed_iff in Hok.
        destruct Hok as [->|Hpre]; [discriminate|].
        destruct (os_ReadFile env attachmentPath) as [e|data].
        -- rewrite Hc. split.
           ++ intros [msg H]. discriminate.
           ++ intros [[->|[_ [data H]]] _]; discriminate.
        -- split; [|intros _; exact Hc].
           intros _. split; [right; eauto|exact Hb].
      * apply nonempty_false in Hp. subst attachmentPath.
        split; [intros _; auto|].
        intros _. destruct (os_ReadFile env ""); exact Hc.
    + rewrite Hc. split.
      * intros [msg H]. discriminate.
      * intros [_ Hbody]. apply body_present_iff in Hbody. congruence.
  - rewrite Hc. apply path_refused_iff in Hok. destruct Hok as [Hne Hpre]. split.
    + intros [msg H]. discriminate.
    + intros [[->|[[rest Hrest] _]] _]; [congruence|destruct (Hpre rest Hrest)].
Qed.

(** X2. The error of a failed build is that of the first check that fails:
    the path prefix, then the bodies, then the reading of the file, whose
    error is returned as the file system gave it. *)
Theorem build_error_precedence (env : Env)
    (subject body htmlBody attachmentPath : string) (to : slice) (st : State) (e : error) :
  fst (createEmailMessage env subject body htmlBody attachmentPath to st) = inl e ->
  let prefix := AttachmentPathPrefix (emailConfig st) ++ "/" in
  (e = InvalidAttachmentPath prefix
   /\ attachmentPath <> "" /\ forall rest, attachmentPath <> prefix ++ rest)
  \/ (e = EmptyBody
      /\ (attachmentPath = "" \/ exists rest, attachmentPath = prefix ++ rest)
      /\ body = "" /\ htmlBody = "")
  \/ (os_ReadFile env attachmentPath = inl e
      /\ attachmentPath <> "" /\ (exists rest, attachmentPath = prefix ++ rest)
      /\ (body <> "" \/ htmlBody <> "")).
Proof.
  intros Hfail prefix. subst prefix.
  destruct (createEmailMessage_run env subject body htmlBody attachmentPath to st)
    as (Hr & _ & _).
  rewrite Hr in Hfail.
  pose proof (built_by_checks (emailConfig st) (boundary_at env (rand_read st))
                (boundary_at env (rand_read st + 30)) (os_ReadFile env attachmentPath)
                (mime.TypeByExtension (mimeTypes env) (filepath.Ext attachmentPath))
                subject body htmlBody attachmentPath (elems to)) as Hc.
  cbv zeta in Hc.
  destruct (path_allowed (emailConfig st) attachmentPath) eqn:Hok.
  - destruct (nonempty body || nonempty htmlBody) eqn:Hb.
    + right. right. apply body_present_iff in Hb.
      destruct (nonempty attachmentPath) eqn:Hp.
      * apply path_allowed_iff in Hok. destruct Hok as [->|Hpre]; [discriminate|].
        destruct (os_ReadFile env attachmentPath) as [e'|data].
        -- rewrite Hc in Hfail. injection Hfail as ->.
           repeat split; auto. intros ->. discriminate.
        -- destruct Hc as [msg Hc]. congruence.
      * destruct (os_ReadFile env attachmentPath); destruct Hc as [msg Hc]; congruence.
    + right. left. rewrite Hc in Hfail. injection Hfail as <-.
      apply orb_false_iff in Hb. destruct Hb as [Hb Hh].
      apply nonempty_false in Hb. apply nonempty_false in Hh.
      apply path_allowed_iff in Hok. auto.
  - left. rewrite Hc in Hfail. injection Hfail as <-.
    apply path_refused_iff in Hok. destruct Hok. auto.
Qed.

Lemma build_error_precedence_witness :
  (PathError "open" "storage/missing.bin" "no such file or directory"
   = InvalidAttachmentPath "storage/"
   /\ "storage/missing.bin" <> ""
   /\ forall rest, "storage/missing.bin" <> "storage/" ++ rest)
  \/ (PathError "open" "storage/missing.bin" "no such file or directory" = EmptyBody
      /\ ("storage/missing.bin" = "" \/ exists rest, "storage/missing.bin" = "storage/" ++ rest)
      /\ "Hi there" = "" /\ "" = "")
  \/ (os_ReadFile sample_env "storage/missing.bin"
      = inl (PathError "open" "storage/missing.bin" "no such file or directory")
      /\ "storage/missing.bin" <> ""
      /\ (exists rest, "storage/missing.bin" = "storage/" ++ rest)
      /\ ("Hi there" <> "" \/ "" <> "")).
Proof.
  apply (build_error_precedence sample_env "Hello" "Hi there" "" "storage/missing.bin"
           (slice_of ["a@x.com"]) sample_state).
  vm_compute. reflexivity.
Defined.

Lemma build_events_read (cfg : EmailConfig) (body htmlBody attachmentPath : string) :
  attachmentPath <> "" ->
  (exists rest, attachmentPath = (AttachmentPathPrefix cfg ++ "/") ++ rest) ->
  body <> "" \/ htmlBody <> "" ->
  build_events cfg body htmlBody attachmentPath = [ReadFile attachmentPath].
Proof.
  intros Hne [rest Hpre] Hbody. unfold build_events.
  rewrite (nonempty_true _ Hne). rewrite Hpre at 1. rewrite HasPrefix_append.
  apply body_present_iff in Hbody. rewrite Hbody. reflexivity.
Qed.

Lemma build_events_none (cfg : EmailConfig) (body htmlBody attachmentPath : string) :
  attachmentPath = ""
  \/ (forall rest, attachmentPath <> (AttachmentPathPrefix cfg ++ "/") ++ rest)
  \/ (body = "" /\ htmlBody = "") ->
  build_events cfg body htmlBody attachmentPath = [].
Proof.
  intros H. unfold build_events.
  destruct (nonempty attachmentPath) eqn:Hp; [|reflexivity].
  destruct (strings.HasPrefix attachmentPath _) eqn:Hpre; [|reflexivity].
  destruct (nonempty body || nonempty htmlBody) eqn:Hb; [|reflexivity].
  exfalso. destruct H as [->|[H|[-> ->]]].
  - discriminate.
  - apply HasPrefix_true in Hpre. destruct Hpre as [rest Hrest]. exact (H rest Hrest).
  - discriminate.
Qed.

(** X3. A build calls the file system at most once and nothing else: it
    reads attachmentPath, exactly as given, when the path is non-empty, has
    the prefix, and a body is present; in every other case it calls no
    collaborator at all. *)
Theorem build_reads_attachment_once (env : Env)
    (subject body htmlBody attachmentPath : string) (to : slice) (st : State) :
  let r := createEmailMessage env subject body htmlBody attachmentPath to st in
  (attachmentPath <> "" ->
   (exists rest, attachmentPath = (AttachmentPathPrefix (emailConfig st) ++ "/") ++ rest) ->
   body <> "" \/ htmlBody <> "" ->
   new_events st (snd r) = [ReadFile attachmentPath])
  /\ (attachmentPath = ""
      \/ (forall rest,
             attachmentPath <> (AttachmentPathPrefix (emailConfig st) ++ "/") ++ rest)
      \/ (body = "" /\ htmlBody = "") ->
      new_events st (snd r) = []).
Proof.
  intros r. subst r.
  destruct (createEmailMessage_run env subject body htmlBody attachmentPath to st)
    as (_ & Ht & _).
  split.
  - intros Hne Hpre Hbody. apply new_events_app. rewrite Ht.
    rewrite build_events_read by assumption. reflexivity.
  - intros H. apply new_events_app. rewrite Ht, build_events_none by assumption.
    reflexivity.
Qed.

Lemma build_reads_attachment_once_witness :
  new_events sample_state
    (snd (createEmailMessage sample_env "Hello" "Hi there" "" "storage/../etc/passwd"
            (slice_of ["a@x.com"]) sample_state))
  = [ReadFile "storage/../etc/passwd"].
Proof.
  apply (proj1 (build_reads_attachment_once sample_env "Hello" "Hi there" ""
                  "storage/../etc/passwd" (slice_of ["a@x.com"]) sample_state)).
  - discriminate.
  - exists "../etc/passwd". reflexivity.
  - left. discriminate.
Defined.

(** ** Outcomes of a send *)

(** X4. When the attachment cannot be read, the build fails with the file
    system's own error, and the send returns false having read the file once
    and logged that error as an error creating the message; the transport is
    not called. *)
Theorem read_error_aborts_send (env : Env)
    (subject body htmlBody attachmentPath : string) (to : slice) (st : State) (e : error) :
  attachmentPath <> "" ->
  (exists rest, attachmentPath = (AttachmentPathPrefix (emailConfig st) ++ "/") ++ rest) ->
  body <> "" \/ htmlBody <> "" ->
  os_ReadFile env attachmentPath = inl e ->
  let r := EmailSender env subject body htmlBody attachmentPath to st in
  fst (createEmailMessage env subject body htmlBody attachmentPath to st) = inl e
  /\ fst r = inr false
  /\ new_events st (snd r)
     = [ReadFile attachmentPath; LogError "Error creating message:" e].
Proof.
  intros Hne Hpre Hbody Hfile r.
  assert (Hbuild : fst (createEmailMessage env subject body htmlBody attachmentPath to st)
                   = inl e).
  { destruct (createEmailMessage_run env subject body htmlBody attachmentPath to st)
      as (Hr & _ & _).
    rewrite Hr.
    pose proof (built_by_checks (emailConfig st) (boundary_at env (rand_read st))
                  (boundary_at env (rand_read st + 30)) (os_ReadFile env attachmentPath)
                  (mime.TypeByExtension (mimeTypes env) (filepath.Ext attachmentPath))
                  subject body htmlBody attachmentPath (elems to)) as Hc.
    cbv zeta in Hc.
    assert (Hok : path_allowed (emailConfig st) attachmentPath = true)
      by (apply path_allowed_iff; right; exact Hpre).
    rewrite Hok, (proj2 (body_present_iff body htmlBody) Hbody),
      (nonempty_true _ Hne), Hfile in Hc.
    rewrite Hfile. exact Hc. }
  pose proof (EmailSender_run env subject body htmlBody attachmentPath to st) as Hrun.
  cbv zeta in Hrun. fold r in Hrun. rewrite Hbuild in Hrun.
  destruct Hrun as [Hres Htrace].
  repeat split; [exact Hbuild | exact Hres |].
  apply new_events_app. rewrite Htrace.
  rewrite build_events_read by assumption. reflexivity.
Qed.

Lemma read_error_aborts_send_witness :
  let e := PathError "open" "storage/missing.bin" "no such file or directory" in
  let r := EmailSender sample_env "Hello" "Hi there" "" "storage/missing.bin"
             (slice_of ["a@x.com"]) sample_state in
  fst (createEmailMessage sample_env "Hello" "Hi there" "" "storage/missing.bin"
         (slice_of ["a@x.com"]) sample_state) = inl e
  /\ fst r = inr false
  /\ new_events sample_state (snd r)
     = [ReadFile "storage/missing.bin"; LogError "Error creating message:" e].
Proof.
  apply (read_error_aborts_send sample_env "Hello" "Hi there" "" "storage/missing.bin"
           (slice_of ["a@x.com"]) sample_state).
  - discriminate.
  - exists "missing.bin". reflexivity.
  - left. discriminate.
  - reflexivity.
Defined.

(** X5. When the build succeeds and the transport reports an error, the send
    returns false; after the reads of the build it has called the transport
    once, with the message built, and logged the transport's error as an
    error sending the email. There is no second attempt. *)
Theorem transport_failure_reported (env : Env)
    (subject body htmlBody attachmentPath : string) (to : slice) (st : State)
    (msg : string) (err : error) :
  let cfg := emailConfig st in
  fst (createEmailMessage env subject body htmlBody attachmentPath to st) = inr msg ->
  smtp_SendMail env (send_addr cfg) (auth_of cfg) (EmailAddress cfg)
    (envelope cfg (elems to)) msg = Some err ->
  let r := EmailSender env subject body htmlBody attachmentPath to st in
  fst r = inr false
  /\ exists reads,
       new_events st (snd r)
       = (reads ++ [SendMail (send_addr cfg) (auth_of cfg) (EmailAddress cfg)
                      (envelope cfg (elems to)) msg;
                    LogError "Error sending email:" err])%list
       /\ forall ev, In ev reads -> ev = ReadFile attachmentPath.
Proof.
  intros cfg Hbuild Hsend r.
  pose proof (EmailSender_run env subject body htmlBody attachmentPath to st) as Hrun.
  cbv zeta in Hrun. fold cfg r in Hrun. rewrite Hbuild, Hsend in Hrun.
  destruct Hrun as [Hres Htrace]. split; [exact Hres|].
  exists (build_events cfg body htmlBody attachmentPath). split.
  - apply new_events_app. exact Htrace.
  - unfold build_events. intros ev Hev. destruct (_ && _); cbn [In] in Hev.
    + destruct Hev as [<-|[]]. reflexivity.
    + destruct Hev.
Qed.

Lemma transport_failure_reported_witness :
  let r := EmailSender sample_env_down "Hello" "Hi there" "" "" (slice_of ["a@x.com"])
             sample_state in
  let msg := message_of sample_config "Hello" ["a@x.com"] (boundary_at sample_env_down 0)
               [text_part "Hi there"] in
  fst r = inr false
  /\ exists reads,
       new_events sample_state (snd r)
       = (reads ++ [SendMail "smtp.x.com:587" (auth_of sample_config) "me@x.com"
                      ["a@x.com"; "bcc@x.com"] msg;
                    LogError "Error sending email:" (smtp_error "connection refused")])%list
       /\ forall ev, In ev reads -> ev = ReadFile "".
Proof.
  apply (transport_failure_reported sample_env_down "Hello" "Hi there" "" ""
           (slice_of ["a@x.com"]) sample_state).
  - vm_compute. reflexivity.
  - reflexivity.
Defined.

Lemma build_events_filter (cfg : EmailConfig) (body htmlBody attachmentPath : string) :
  filter is_SendMail (build_events cfg body htmlBody attachmentPath) = []
  /\ filter is_LogError (build_events cfg body htmlBody attachmentPath) = [].
Proof. unfold build_events. destruct (_ && _); split; reflexivity. Qed.

(** X6. Whatever the outcome, a send calls the transport at most once, and
    exactly once when it returns true; it logs exactly one error when it
    returns false and none when it returns true. *)
Theorem send_once_log_once (env : Env)
    (subject body htmlBody attachmentPath : string) (to : slice) (st : State) :
  let r := EmailSender env subject body htmlBody attachmentPath to st in
  let evs := new_events st (snd r) in
  exists ok,
    fst r = inr ok
    /\ List.length (filter is_SendMail evs) <= 1
    /\ (ok = true -> List.length (filter is_SendMail evs) = 1)
    /\ List.length (filter is_LogError evs) = if ok then 0 else 1.
Proof.
  intros r evs.
  pose proof (EmailSender_run env subject body htmlBody attachmentPath to st) as Hrun.
  cbv zeta in Hrun. fold r in Hrun.
  destruct (build_events_filter (emailConfig st) body htmlBody attachmentPath)
    as [Hs Hl].
  destruct (fst (createEmailMessage env subject body htmlBody attachmentPath to st))
    as [e|msg].
  - destruct Hrun as [Hres Htrace]. apply new_events_app in Htrace.
    exists false. subst evs. rewrite Htrace, !filter_app, Hs, Hl. cbn.
    repeat split; auto. discriminate.
  - destruct Hrun as [Hres Htrace]. apply new_events_app in Htrace.
    destruct (smtp_SendMail env _ _ _ _ msg) as [err|].
    + exists false. subst evs. rewrite Htrace, !filter_app, Hs, Hl. cbn.
      repeat split; auto.
    + exists true. subst evs. rewrite Htrace, !filter_app, Hs, Hl. cbn.
      repeat split; auto.
Qed.

(** X7. With no BCC address configured the recipients handed to the
    transport are exactly the addresses of [to], and the transport is handed
    them whenever the build succeeds. *)
Theorem no_bcc_envelope (env : Env)
    (subject body htmlBody attachmentPath : string) (to : slice) (st : State) :
  BccAddressToSendCopy (emailConfig st) = "" ->
  let cfg := emailConfig st in
  let r := EmailSender env subject body htmlBody attachmentPath to st in
  (forall addr a from rcpts msg,
      In (SendMail addr a from rcpts msg) (new_events st (snd r)) -> rcpts = elems to)
  /\ (forall msg,
        fst (createEmailMessage env subject body htmlBody attachmentPath to st) = inr msg ->
        In (SendMail (send_addr cfg) (auth_of cfg) (EmailAddress cfg) (elems to) msg)
           (new_events st (snd r))).
Proof.
  intros Hbcc cfg r.
  assert (Henv : envelope cfg (elems to) = elems to).
  { unfold envelope, cfg. rewrite Hbcc. cbn. apply app_nil_r. }
  pose proof (EmailSender_run env subject body htmlBody attachmentPath to st) as Hrun.
  cbv zeta in Hrun. fold cfg r in Hrun. rewrite Henv in Hrun.
  destruct (fst (createEmailMessage env subject body htmlBody attachmentPath to st))
    as [e|built_msg]; destruct Hrun as [_ Htrace]; apply new_events_app in Htrace;
    rewrite Htrace; split.
  - intros addr a from rcpts msg Hin. apply in_app_or in Hin. destruct Hin as [Hin|Hin].
    + apply build_events_not_SendMail in Hin. discriminate.
    + destruct Hin as [Hin|[]]. discriminate.
  - discriminate.
  - intros addr a from rcpts msg Hin. apply in_app_or in Hin. destruct Hin as [Hin|Hin].
    + apply build_events_not_SendMail in Hin. discriminate.
    + destruct Hin as [Hin|Hin].
      * injection Hin as _ _ _ <- _. reflexivity.
      * destruct (smtp_SendMail env _ _ _ _ built_msg); cbn [In] in Hin.
        -- destruct Hin as [Hin|[]]. discriminate.
        -- destruct Hin.
  - intros msg [= <-]. apply in_or_app. right. left. reflexivity.
Qed.

Lemma no_bcc_envelope_witness :
  let st := set_emailConfig (with_bcc "" sample_config) sample_state in
  In (SendMail "smtp.x.com:587" (auth_of sample_config) "me@x.com" ["a@x.com"; "b@x.com"]
        (message_of sample_config "Hello" ["a@x.com"; "b@x.com"] (boundary_at sample_env 0)
           [text_part "Hi there"]))
     (new_events st
        (snd (EmailSender sample_env "Hello" "Hi there" "" ""
                (slice_of ["a@x.com"; "b@x.com"]) st))).
Proof.
  intros st.
  refine (proj2 (no_bcc_envelope sample_env "Hello" "Hi there" "" ""
                   (slice_of ["a@x.com"; "b@x.com"]) st _) _ _).
  - reflexivity.
  - vm_compute. reflexivity.
Defined.

(** A send leaves the configuration as it found it. *)
Lemma EmailSender_config (env : Env)
    (subject body htmlBody attachmentPath : string) (to : slice) (st : State) :
  emailConfig (snd (EmailSender env subject body htmlBody attachmentPath to st))
  = emailConfig st.
Proof.
  unfold EmailSender, emailAuth, try, LogError_call, SendMail_call, emit, modify,
    bind, gets, ret.
  destruct (if nonempty (BccAddressToSendCopy (emailConfig st))
            then append_slice to (BccAddressToSendCopy (emailConfig st))
            else (to, to)) as [recipients to'].
  pose proof (createEmailMessage_run env subject body htmlBody attachmentPath to' st) as H.
  cbv zeta in H. destruct H as (_ & _ & Hc).
  destruct (createEmailMessage env subject body htmlBody attachmentPath to' st)
    as [[e|msg] st1]; cbn [fst snd] in *.
  - exact Hc.
  - destruct (smtp_SendMail env _ _ _ _ msg); cbn [fst snd emailConfig set_trace];
      exact Hc.
Qed.

(** X8. After [SetConfig config], whatever the state was, a send connects to
    the host and port of [config], authenticates with PLAIN under an empty
    identity, the address and password of [config] and its host, and gives
    the address of [config] as sender; the send leaves [config] in force. *)
Theorem configured_send (env : Env) (config : EmailConfig)
    (subject body htmlBody attachmentPath : string) (to : slice) (st : State) :
  let r := (SetConfig config ;;;
            EmailSender env subject body htmlBody attachmentPath to) st in
  emailConfig (snd r) = config
  /\ (forall addr a from rcpts msg,
        In (SendMail addr a from rcpts msg) (new_events st (snd r)) ->
        addr = Host config ++ ":" ++ Port config
        /\ a = PlainAuth "" (EmailAddress config) (Password config) (Host config)
        /\ from = EmailAddress config)
  /\ (forall msg,
        fst (createEmailMessage env subject body htmlBody attachmentPath to
               (set_emailConfig config st)) = inr msg ->
        exists rcpts, In (SendMail (Host config ++ ":" ++ Port config)
                            (PlainAuth "" (EmailAddress config) (Password config)
                               (Host config))
                            (EmailAddress config) rcpts msg)
                         (new_events st (snd r))).
Proof.
  intros r.
  assert (Hr : r = EmailSender env subject body htmlBody attachmentPath to
                     (set_emailConfig config st)) by reflexivity.
  rewrite Hr. clear Hr r.
  set (st' := set_emailConfig config st).
  assert (Hnew : forall after, new_events st after = new_events st' after) by reflexivity.
  pose proof (EmailSender_run env subject body htmlBody attachmentPath to st') as Hrun.
  cbv zeta in Hrun. change (emailConfig st') with config in Hrun.
  split; [|split].
  - rewrite EmailSender_config. reflexivity.
  - intros addr a from rcpts msg Hin. rewrite Hnew in Hin.
    destruct (fst (createEmailMessage env subject body htmlBody attachmentPath to st'))
      as [e|built_msg]; destruct Hrun as [_ Htrace]; apply new_events_app in Htrace;
      rewrite Htrace in Hin; apply in_app_or in Hin; destruct Hin as [Hin|Hin];
      try (apply build_events_not_SendMail in Hin; discriminate).
    + destruct Hin as [Hin|[]]. discriminate.
    + destruct Hin as [Hin|Hin].
      * injection Hin as <- <- <- _ _. auto.
      * destruct (smtp_SendMail env _ _ _ _ built_msg); cbn [In] in Hin.
        -- destruct Hin as [Hin|[]]. discriminate.
        -- destruct Hin.
  - intros msg Hmsg. rewrite Hmsg in Hrun. destruct Hrun as [_ Htrace].
    apply new_events_app in Htrace. exists (envelope config (elems to)).
    rewrite Hnew, Htrace. apply in_or_app. right. left. reflexivity.
Qed.

(** ** Encoded headers and attachment bodies *)

Lemma string_forall_append (p : ascii -> bool) (s t : string) :
  string_forall p (s ++ t) = string_forall p s && string_forall p t.
Proof.
  induction s as [|c s IH]; cbn [append string_forall]; [reflexivity|].
  rewrite IH. apply andb_assoc.
Qed.

Lemma base64_char_printable (c : ascii) :
  base64.in_table c base64.encodeStd || Ascii.eqb c base64.padChar = true ->
  printable c = true.
Proof.
  destruct c as [b0 b1 b2 b3 b4 b5 b6 b7].
  destruct b0, b1, b2, b3, b4, b5, b6, b7; vm_compute; intros H;
    first [reflexivity | discriminate H].
Qed.

Lemma base64_text_printable (s : string) :
  base64.is_base64_text s = true -> string_forall printable s = true.
Proof.
  induction s as [|c s IH]; cbn [base64.is_base64_text string_forall]; [reflexivity|].
  intros H. apply andb_true_iff in H. destruct H as [Hc Hs].
  rewrite (base64_char_printable c Hc), (IH Hs). reflexivity.
Qed.

Lemma EncodeToString_length (s : string) :
  String.length (base64.EncodeToString s) = 4 * ((String.length s + 2) / 3).
Proof.
  induction s as [| a | a b | a b c rest IH] using string_ind3;
    cbn [base64.EncodeToString String.length]; try reflexivity.
  rewrite IH.
  replace (S (S (S (String.length rest))) + 2) with (1 * 3 + (String.length rest + 2))
    by lia.
  rewrite Nat.div_add_l by discriminate. lia.
Qed.

(** X9. Whatever bytes the header text holds, every byte of the encoded
    header is a printable ASCII character other than the space: the encoded
    subject or sender name holds no line break, no control character and no
    byte above 126. *)
Theorem encodeHeader_printable (header : string) :
  string_forall printable (encodeHeader header) = true.
Proof.
  unfold encodeHeader. rewrite !string_forall_append.
  rewrite (base64_text_printable _ (base64_facts.EncodeToString_text header)).
  reflexivity.
Qed.

(** X10. The encoded header of a text of [n] bytes has
    [12 + 4 * ceil(n / 3)] bytes. *)
Theorem encodeHeader_length (header : string) :
  String.length (encodeHeader header) = 12 + 4 * ((String.length header + 2) / 3).
Proof.
  unfold encodeHeader. cbn [append String.length].
  pose proof (EncodeToString_length header) as H.
  assert (Happ : forall s t, String.length (s ++ t) = String.length s + String.length t).
  { intros s t. induction s as [|c s IH]; cbn [append String.length Nat.add];
      [reflexivity | rewrite IH; reflexivity]. }
  rewrite Happ, H. cbn [String.length]. lia.
Qed.

(** X11. The body of the attachment part is one unbroken line: for a file of
    [n] bytes it is [4 * ceil(n / 3)] printable characters, with no line
    break however long the file is. *)
Theorem attachment_body_one_line (env : Env)
    (subject body htmlBody attachmentPath data : string) (to : slice) (st : State) :
  attachmentPath <> "" ->
  (exists rest, attachmentPath = (AttachmentPathPrefix (emailConfig st) ++ "/") ++ rest) ->
  body <> "" \/ htmlBody <> "" ->
  os_ReadFile env attachmentPath = inr data ->
  exists bodies contentType content,
    fst (createEmailMessage env subject body htmlBody attachmentPath to st)
    = inr (message_of (emailConfig st) subject (elems to)
             (boundary_at env (rand_read st))
             (bodies ++ [attachment_part contentType attachmentPath content]))
    /\ String.length content = 4 * ((String.length data + 2) / 3)
    /\ string_forall printable content = true
    /\ strings.Contains content CRLF = false.
Proof.
  intros Hne Hpre Hbody Hfile.
  destruct (build_with_attachment env subject body htmlBody attachmentPath data to st
              Hne Hpre Hbody Hfile) as [bodies Hmsg].
  exists bodies, (mime.TypeByExtension (mimeTypes env) (filepath.Ext attachmentPath)),
    (base64.EncodeToString data).
  pose proof (base64_text_printable _ (base64_facts.EncodeToString_text data)) as Hp.
  repeat split.
  - exact Hmsg.
  - apply EncodeToString_length.
  - exact Hp.
  - clear Hmsg. induction (base64.EncodeToString data) as [|c s IH].
    + reflexivity.
    + cbn [string_forall] in Hp. apply andb_true_iff in Hp. destruct Hp as [Hc Hs].
      cbn [strings.Contains]. rewrite (IH Hs), orb_false_r.
      unfold CRLF. cbn [String.prefix].
      destruct (ascii_dec "013" c) as [<-|]; [discriminate Hc|reflexivity].
Qed.

Lemma attachment_body_one_line_witness :
  exists bodies contentType content,
    fst (createEmailMessage sample_env "Hello" "Hi there" "" "storage/notes.txt"
           (slice_of ["a@x.com"]) sample_state)
    = inr (message_of sample_config "Hello" ["a@x.com"] (boundary_at sample_env 0)
             (bodies ++ [attachment_part contentType "storage/notes.txt" content]))
    /\ String.length content = 4 * ((String.length "some notes" + 2) / 3)
    /\ string_forall printable content = true
    /\ strings.Contains content CRLF = false.
Proof.
  apply (attachment_body_one_line sample_env "Hello" "Hi there" "" "storage/notes.txt"
           "some notes" (slice_of ["a@x.com"]) sample_state).
  - discriminate.
  - exists "notes.txt". reflexivity.
  - left. discriminate.
  - reflexivity.
Defined.

(** ** File name and extension of the attachment *)

Lemma strip_trailing_split (p : string) :
  exists back,
    p = filepath.strip_trailing p ++ back
    /\ string_forall filepath.IsPathSeparator back = true.
Proof.
  induction p as [|c rest IH].
  - exists "". split; reflexivity.
  - destruct IH as (back & Hrest & Hback). cbn [filepath.strip_trailing].
    destruct (filepath.strip_trailing rest) as [|d r] eqn:Hs.
    + cbn [append] in Hrest. subst back.
      destruct (filepath.IsPathSeparator c) eqn:Hc.
      * exists (String c rest). split; [reflexivity|].
        cbn [string_forall]. rewrite Hc, Hback. reflexivity.
      * exists rest. split; [reflexivity|exact Hback].
    + exists back. split; [|exact Hback]. cbn [append] in Hrest |- *. congruence.
Qed.

Lemma strip_trailing_empty (p : string) :
  filepath.strip_trailing p = "" -> string_forall filepath.IsPathSeparator p = true.
Proof.
  intros H. destruct (strip_trailing_split p) as (back & Hp & Hback).
  rewrite H in Hp. cbn [append] in Hp. subst back. exact Hback.
Qed.

Lemma last_element_no_separator (p : string) :
  filepath.has_separator (filepath.last_element p) = false.
Proof.
  induction p as [|c rest IH]; [reflexivity|].
  cbn [filepath.last_element].
  destruct (filepath.has_separator rest) eqn:Hr; [exact IH|].
  destruct (filepath.IsPathSeparator c) eqn:Hc; [exact Hr|].
  cbn [filepath.has_separator]. rewrite Hc, Hr. reflexivity.
Qed.

Lemma IsPathSeparator_true (c : ascii) : filepath.IsPathSeparator c = true -> c = "/"%char.
Proof. unfold filepath.IsPathSeparator. apply Ascii.eqb_eq. Qed.

(** What precedes the last element is empty or ends with a separator. *)
Lemma last_element_split (p : string) :
  exists front,
    p = front ++ filepath.last_element p
    /\ (front = "" \/ exists dir, front = dir ++ "/").
Proof.
  induction p as [|c rest IH]; [exists ""; auto|].
  cbn [filepath.last_element].
  destruct (filepath.has_separator rest) eqn:Hsep.
  - destruct IH as (front & Hrest & [->|[dir ->]]).
    + cbn [append] in Hrest. rewrite Hrest, last_element_no_separator in Hsep.
      discriminate.
    + exists (String c dir ++ "/"). split; [|right; eauto].
      cbn [append]. congruence.
  - destruct (filepath.IsPathSeparator c) eqn:Hc.
    + apply IsPathSeparator_true in Hc. subst c.
      exists "/". split; [reflexivity|]. right. exists "". reflexivity.
    + exists "". auto.
Qed.

Lemma last_element_strip_nonempty (p : string) :
  filepath.strip_trailing p <> "" ->
  filepath.last_element (filepath.strip_trailing p) <> "".
Proof.
  induction p as [|c rest IH]; [intros H; exact H|].
  cbn [filepath.strip_trailing].
  destruct (filepath.strip_trailing rest) as [|d r] eqn:Hs.
  - destruct (filepath.IsPathSeparator c) eqn:Hc; [intros H; exact H|].
    intros _. cbn [filepath.last_element filepath.has_separator]. rewrite Hc. discriminate.
  - intros _. cbn [filepath.last_element].
    destruct (filepath.has_separator (String d r)).
    + apply IH. discriminate.
    + destruct (filepath.IsPathSeparator c); discriminate.
Qed.

(** The base name of a path that is not made of separators only: the
    non-empty text without separator that lies between the last separator
    before it (or the start of the path) and the separators that end the
    path. *)
Lemma Base_shape (p : string) :
  string_forall filepath.IsPathSeparator p = false ->
  filepath.Base p <> ""
  /\ filepath.has_separator (filepath.Base p) = false
  /\ exists front back,
       p = front ++ filepath.Base p ++ back
       /\ (front = "" \/ exists dir, front = dir ++ "/")
       /\ string_forall filepath.IsPathSeparator back = true.
Proof.
  intros Hp. unfold filepath.Base.
  destruct p as [|c rest] eqn:Heq; [discriminate Hp|]. rewrite <- Heq in *.
  replace (p =? "")%string with false by (subst p; reflexivity).
  assert (Hs : filepath.strip_trailing p <> "").
  { intros H. apply strip_trailing_empty in H. congruence. }
  pose proof (last_element_strip_nonempty p Hs) as Hl.
  destruct (filepath.last_element (filepath.strip_trailing p)) as [|d name] eqn:Hname;
    [congruence|].
  cbn [String.eqb]. rewrite <- Hname. repeat split.
  - congruence.
  - apply last_element_no_separator.
  - destruct (strip_trailing_split p) as (back & Hsplit & Hback).
    destruct (last_element_split (filepath.strip_trailing p)) as (front & Hfront & Hdir).
    exists front, back. split; [|split; [exact Hdir|exact Hback]].
    rewrite <- append_assoc, <- Hfront. exact Hsplit.
Qed.

(** A path has one last element only: two ways of cutting it into a front
    that is empty or ends with a slash, a non-empty name without slash, and
    slashes give the same name. *)
Lemma last_element_unique (front1 name1 back1 front2 name2 back2 : string) :
  front1 ++ name1 ++ back1 = front2 ++ name2 ++ back2 ->
  (front1 = "" \/ exists dir, front1 = dir ++ "/") ->
  (front2 = "" \/ exists dir, front2 = dir ++ "/") ->
  name1 <> "" -> name2 <> "" ->
  filepath.has_separator name1 = false -> filepath.has_separator name2 = false ->
  string_forall filepath.IsPathSeparator back1 = true ->
  string_forall filepath.IsPathSeparator back2 = true ->
  name1 = name2.
Proof.
  intros Heq Hf1 Hf2 Hn1 Hn2 Hs1 Hs2 Hb1 Hb2.
  assert (Hbase : forall front name back,
             (front = "" \/ exists dir, front = dir ++ "/") ->
             name <> "" -> filepath.has_separator name = false ->
             string_forall filepath.IsPathSeparator back = true ->
             filepath.last_element (filepath.strip_trailing (front ++ name ++ back))
             = name).
  { clear. intros front name back Hfront Hname Hsep Hback.
    assert (Hstrip_back : forall b, string_forall filepath.IsPathSeparator b = true ->
                                    filepath.strip_trailing b = "").
    { induction b as [|c b IH]; [reflexivity|]. cbn [string_forall filepath.strip_trailing].
      intros H. apply andb_true_iff in H. destruct H as [Hc Hb].
      rewrite (IH Hb), Hc. reflexivity. }
    assert (Hstrip_name : forall n b, n <> "" -> filepath.has_separator n = false ->
                                      string_forall filepath.IsPathSeparator b = true ->
                                      filepath.strip_trailing (n ++ b) = n).
    { induction n as [|c n IH]; intros b Hn Hs Hb; [congruence|].
      cbn [filepath.has_separator] in Hs. apply orb_false_iff in Hs. destruct Hs as [Hc Hs].
      cbn [append filepath.strip_trailing].
      destruct n as [|d n'].
      - cbn [append]. rewrite (Hstrip_back b Hb), Hc. reflexivity.
      - rewrite (IH b) by (auto; discriminate). reflexivity. }
    assert (Hstrip : forall f, filepath.strip_trailing (f ++ name ++ back) = f ++ name).
    { induction f as [|c f IH]; cbn [append].
      - apply Hstrip_name; assumption.
      - cbn [filepath.strip_trailing]. rewrite IH.
        destruct (f ++ name) as [|d r] eqn:Hfn; [|reflexivity].
        destruct f; [cbn [append] in Hfn; congruence|discriminate Hfn]. }
    rewrite Hstrip.
    assert (Hlast_name : forall n, filepath.has_separator n = false ->
                                   filepath.last_element n = n).
    { induction n as [|c n IH]; [reflexivity|]. cbn [filepath.has_separator].
      intros H. apply orb_false_iff in H. destruct H as [Hc Hs].
      cbn [filepath.last_element]. rewrite Hs, Hc. reflexivity. }
    assert (Hsep_app : forall a b, filepath.has_separator (a ++ b)
                                   = filepath.has_separator a || filepath.has_separator b).
    { induction a as [|c a IH]; intros b; cbn [append filepath.has_separator];
        [reflexivity|]. rewrite IH. apply orb_assoc. }
    assert (Hlast : forall d, filepath.last_element ((d ++ "/") ++ name) = name).
    { induction d as [|c d IH]; cbn [append].
      - cbn [filepath.last_element]. rewrite Hsep.
        change (filepath.IsPathSeparator "/") with true. cbn iota. reflexivity.
      - cbn [filepath.last_element].
        replace (filepath.has_separator ((d ++ "/") ++ name)) with true.
        + exact IH.
        + symmetry. rewrite !Hsep_app. cbn. rewrite orb_true_r. reflexivity. }
    destruct Hfront as [->|[dir ->]].
    - cbn [append]. apply Hlast_name, Hsep.
    - apply Hlast. }
  rewrite <- (Hbase front1 name1 back1), <- (Hbase front2 name2 back2) by assumption.
  rewrite Heq. reflexivity.
Qed.

(** X12. The file name written in the Content-Disposition field of the
    attachment part is the last element of attachmentPath: a non-empty text
    without slash that starts the path or follows a slash, and after which
    the path holds slashes only. That text is the only such one. (A path of
    slashes only is left aside.) *)
Theorem attachment_filename_is_last_element (env : Env)
    (subject body htmlBody attachmentPath data : string) (to : slice) (st : State) :
  string_forall filepath.IsPathSeparator attachmentPath = false ->
  (exists rest, attachmentPath = (AttachmentPathPrefix (emailConfig st) ++ "/") ++ rest) ->
  body <> "" \/ htmlBody <> "" ->
  os_ReadFile env attachmentPath = inr data ->
  exists bodies contentType content name,
    fst (createEmailMessage env subject body htmlBody attachmentPath to st)
    = inr (message_of (emailConfig st) subject (elems to)
             (boundary_at env (rand_read st))
             (bodies ++
              [Leaf [ ("Content-Disposition",
                       "attachment; filename=" ++ String DQUOTE (name ++ String DQUOTE ""));
                      ("Content-Transfer-Encoding", "base64");
                      ("Content-Type", contentType) ]
                    content]))
    /\ name <> ""
    /\ filepath.has_separator name = false
    /\ (exists front back,
          attachmentPath = front ++ name ++ back
          /\ (front = "" \/ exists dir, front = dir ++ "/")
          /\ string_forall filepath.IsPathSeparator back = true)
    /\ (forall front' name' back',
          attachmentPath = front' ++ name' ++ back' ->
          (front' = "" \/ exists dir, front' = dir ++ "/") ->
          name' <> "" ->
          filepath.has_separator name' = false ->
          string_forall filepath.IsPathSeparator back' = true ->
          name' = name).
Proof.
  intros Hsep Hpre Hbody Hfile.
  assert (Hne : attachmentPath <> "") by (intros ->; discriminate Hsep).
  destruct (build_with_attachment env subject body htmlBody attachmentPath data to st
              Hne Hpre Hbody Hfile) as [bodies Hmsg].
  destruct (Base_shape attachmentPath Hsep) as (Hn & Hs & Hsplit).
  exists bodies, (mime.TypeByExtension (mimeTypes env) (filepath.Ext attachmentPath)),
    (base64.EncodeToString data), (filepath.Base attachmentPath).
  repeat split; try assumption.
  intros front' name' back' Hcut Hfront' Hname' Hsep' Hback'.
  destruct Hsplit as (front & back & Hcut0 & Hfront & Hback).
  apply (last_element_unique front' name' back' front (filepath.Base attachmentPath) back);
    try assumption.
  congruence.
Qed.

Lemma attachment_filename_is_last_element_witness :
  exists bodies contentType content name,
    fst (createEmailMessage sample_env "Hello" "Hi there" "" "storage/notes.txt"
           (slice_of ["a@x.com"]) sample_state)
    = inr (message_of sample_config "Hello" ["a@x.com"] (boundary_at sample_env 0)
             (bodies ++
              [Leaf [ ("Content-Disposition",
                       "attachment; filename=" ++ String DQUOTE (name ++ String DQUOTE ""));
                      ("Content-Transfer-Encoding", "base64");
                      ("Content-Type", contentType) ]
                    content]))
    /\ name <> ""
    /\ filepath.has_separator name = false
    /\ (exists front back,
          "storage/notes.txt" = front ++ name ++ back
          /\ (front = "" \/ exists dir, front = dir ++ "/")
          /\ string_forall filepath.IsPathSeparator back = true)
    /\ (forall front' name' back',
          "storage/notes.txt" = front' ++ name' ++ back' ->
          (front' = "" \/ exists dir, front' = dir ++ "/") ->
          name' <> "" ->
          filepath.has_separator name' = false ->
          string_forall filepath.IsPathSeparator back' = true ->
          name' = name).
Proof.
  apply (attachment_filename_is_last_element sample_env "Hello" "Hi there" ""
           "storage/notes.txt" "some notes" (slice_of ["a@x.com"]) sample_state).
  - reflexivity.
  - exists "notes.txt". reflexivity.
  - left. discriminate.
  - reflexivity.
Defined.

Lemma ext_scan_none (p : string) :
  filepath.has_separator p = false -> textproto.mem_char "." p = false ->
  filepath.ext_scan p = None.
Proof.
  induction p as [|c rest IH]; [reflexivity|].
  cbn [filepath.has_separator textproto.mem_char filepath.ext_scan].
  intros Hs Hd. apply orb_false_iff in Hs. destruct Hs as [Hc Hs].
  apply orb_false_iff in Hd. destruct Hd as [Hdc Hd].
  rewrite (IH Hs Hd), Hc, Ascii.eqb_sym, Hdc. reflexivity.
Qed.

Lemma ext_scan_shape (p : string) :
  match filepath.ext_scan p with
  | Some r => is_last_extension p r
  | None => filepath.has_separator p = false /\ textproto.mem_char "." p = false
  end.
Proof.
  induction p as [|c rest IH]; [split; reflexivity|].
  cbn [filepath.ext_scan].
  destruct (filepath.ext_scan rest) as [r|] eqn:Hscan.
  - destruct IH as [(front & e & Hrest & Hr & Hs & Hd)|(Hr & dir & elem & Hrest & Hdir & Hs & Hd)].
    + left. exists (String c front), e. cbn [append]. repeat split; congruence.
    + right. split; [exact Hr|]. exists (String c dir), elem.
      repeat split; try assumption.
      * cbn [append]. congruence.
      * right. destruct Hdir as [->|[d ->]].
        -- cbn [append] in Hrest. subst rest.
           rewrite (ext_scan_none elem Hs Hd) in Hscan. discriminate Hscan.
        -- exists (String c d). reflexivity.
  - destruct IH as [Hsep Hdot].
    destruct (filepath.IsPathSeparator c) eqn:Hc.
    + apply IsPathSeparator_true in Hc. subst c.
      right. split; [reflexivity|]. exists "/", rest. repeat split; try assumption.
      right. exists "". reflexivity.
    + destruct (Ascii.eqb c ".") eqn:Hd.
      * apply Ascii.eqb_eq in Hd. subst c. left. exists "", rest. auto.
      * split.
        -- cbn [filepath.has_separator]. rewrite Hc, Hsep. reflexivity.
        -- cbn [textproto.mem_char]. rewrite Ascii.eqb_sym, Hd, Hdot. reflexivity.
Qed.

Lemma Ext_is_last_extension (p : string) : is_last_extension p (filepath.Ext p).
Proof.
  pose proof (ext_scan_shape p) as H. unfold filepath.Ext.
  destruct (filepath.ext_scan p) as [r|]; [exact H|].
  destruct H as [Hs Hd]. right. split; [reflexivity|]. exists "", p. auto.
Qed.

(** A path has one such extension only. *)
Lemma is_last_extension_unique (p ext : string) :
  is_last_extension p ext -> ext = filepath.Ext p.
Proof.
  unfold filepath.Ext.
  intros [(front & e & Hp & He & Hs & Hd)|(He & dir & elem & Hp & Hdir & Hs & Hd)].
  - subst ext p.
    assert (H : filepath.ext_scan (front ++ String "." e) = Some (String "." e)).
    { induction front as [|c front IH]; cbn [append filepath.ext_scan].
      - rewrite (ext_scan_none e Hs Hd). reflexivity.
      - rewrite IH. reflexivity. }
    rewrite H. reflexivity.
  - subst ext p. destruct Hdir as [->|[d ->]].
    + cbn [append]. rewrite (ext_scan_none elem Hs Hd). reflexivity.
    + assert (H : filepath.ext_scan ((d ++ "/") ++ elem) = Some "").
      { induction d as [|c d IH]; cbn [append filepath.ext_scan].
        - rewrite (ext_scan_none elem Hs Hd). reflexivity.
        - rewrite IH. reflexivity. }
      rewrite H. reflexivity.
Qed.

(** X13. The content type of the attachment part is what the MIME table
    holds (nothing giving the empty type) for the extension of the last
    element of attachmentPath: the text from the last dot on when no slash
    follows that dot, and the empty text when the last element holds no dot.
    Directory names and earlier dots play no part, and that extension is the
    only text of this kind. *)
Theorem attachment_type_by_last_extension (env : Env)
    (subject body htmlBody attachmentPath data : string) (to : slice) (st : State) :
  attachmentPath <> "" ->
  (exists rest, attachmentPath = (AttachmentPathPrefix (emailConfig st) ++ "/") ++ rest) ->
  body <> "" \/ htmlBody <> "" ->
  os_ReadFile env attachmentPath = inr data ->
  exists bodies content ext,
    fst (createEmailMessage env subject body htmlBody attachmentPath to st)
    = inr (message_of (emailConfig st) subject (elems to)
             (boundary_at env (rand_read st))
             (bodies ++
              [attachment_part
                 (match mimeTypes env ext with Some t => t | None => "" end)
                 attachmentPath content]))
    /\ is_last_extension attachmentPath ext
    /\ (forall ext', is_last_extension attachmentPath ext' -> ext' = ext).
Proof.
  intros Hne Hpre Hbody Hfile.
  destruct (build_with_attachment env subject body htmlBody attachmentPath data to st
              Hne Hpre Hbody Hfile) as [bodies Hmsg].
  exists bodies, (base64.EncodeToString data), (filepath.Ext attachmentPath).
  split; [exact Hmsg|]. split.
  - apply Ext_is_last_extension.
  - apply is_last_extension_unique.
Qed.

Lemma attachment_type_by_last_extension_witness :
  exists bodies content ext,
    fst (createEmailMessage sample_env "Hello" "Hi there" "" "storage/notes.txt"
           (slice_of ["a@x.com"]) sample_state)
    = inr (message_of sample_config "Hello" ["a@x.com"] (boundary_at sample_env 0)
             (bodies ++
              [attachment_part
                 (match mimeTypes sample_env ext with Some t => t | None => "" end)
                 "storage/notes.txt" content]))
    /\ is_last_extension "storage/notes.txt" ext
    /\ (forall ext', is_last_extension "storage/notes.txt" ext' -> ext' = ext).
Proof.
  apply (attachment_type_by_last_extension sample_env "Hello" "Hi there" ""
           "storage/notes.txt" "some notes" (slice_of ["a@x.com"]) sample_state).
  - discriminate.
  - exists "notes.txt". reflexivity.
  - left. discriminate.
  - reflexivity.
Defined.

(** ** Boundaries *)

Lemma hex_byte_shape (c : ascii) :
  String.length (hex_byte c) = 2 /\ string_forall is_hex_digit (hex_byte c) = true.
Proof.
  destruct c as [b0 b1 b2 b3 b4 b5 b6 b7].
  destruct b0, b1, b2, b3, b4, b5, b6, b7; split; reflexivity.
Qed.

Lemma hex_bytes_shape (l : list ascii) :
  String.length (hex_bytes l) = 2 * List.length l
  /\ string_forall is_hex_digit (hex_bytes l) = true.
Proof.
  induction l as [|c l [IHlen IHhex]]; [split; reflexivity|].
  destruct (hex_byte_shape c) as [Hlen Hhex].
  cbn [hex_bytes List.length]. split.
  - destruct (hex_byte c) as [|h [|k [|x y]]]; try discriminate Hlen.
    cbn [append String.length]. rewrite IHlen. lia.
  - rewrite string_forall_append, Hhex, IHhex. reflexivity.
Qed.

Lemma boundary_at_shape (env : Env) (pos : nat) :
  String.length (boundary_at env pos) = 60
  /\ string_forall is_hex_digit (boundary_at env pos) = true.
Proof.
  unfold boundary_at.
  destruct (hex_bytes_shape (map (rand_Reader env) (seq pos 30))) as [Hlen Hhex].
  rewrite length_map, length_seq in Hlen. split; assumption.
Qed.

(** X14. The boundary of every message built, which the Content-Type header
    gives without quotes, is sixty characters long and made of the digits and
    the letters a to f only, whatever the random bytes are. *)
Theorem boundary_is_sixty_hex_digits (env : Env)
    (subject body htmlBody attachmentPath : string) (to : slice) (st : State)
    (msg : string) :
  fst (createEmailMessage env subject body htmlBody attachmentPath to st) = inr msg ->
  exists boundary parts,
    msg = render (Multipart (message_fields (emailConfig st) subject (elems to))
                    "mixed" boundary parts (Some ""))
    /\ String.length boundary = 60
    /\ string_forall is_hex_digit boundary = true.
Proof.
  intros Hmsg.
  destruct (createEmailMessage_run env subject body htmlBody attachmentPath to st)
    as (Hr & _ & _).
  rewrite Hr in Hmsg. apply built_message in Hmsg. destruct Hmsg as [parts ->].
  exists (boundary_at env (rand_read st)), parts.
  destruct (boundary_at_shape env (rand_read st)) as [Hlen Hhex].
  repeat split; assumption.
Qed.

Lemma boundary_is_sixty_hex_digits_witness :
  exists boundary parts,
    message_of sample_config "Hello" ["a@x.com"] (boundary_at sample_env 0)
      [text_part "Hi there"]
    = render (Multipart (message_fields (emailConfig sample_state) "Hello"
                           (elems (slice_of ["a@x.com"])))
                "mixed" boundary parts (Some ""))
    /\ String.length boundary = 60
    /\ string_forall is_hex_digit boundary = true.
Proof.
  apply (boundary_is_sixty_hex_digits sample_env "Hello" "Hi there" "" ""
           (slice_of ["a@x.com"]) sample_state).
  vm_compute. reflexivity.
Defined.

Lemma hexdigit_index (n : N) :
  (n < 16)%N ->
  base64.index_of (hexdigit n) "0123456789abcdef" = Some (Z.of_N n).
Proof.
  intros Hn.
  assert (H : exists k, k < 16 /\ n = N.of_nat k).
  { exists (N.to_nat n). split; lia. }
  destruct H as (k & Hk & ->).
  do 16 (destruct k as [|k]; [reflexivity|]). lia.
Qed.

Lemma hex_byte_inj (c d : ascii) : hex_byte c = hex_byte d -> c = d.
Proof.
  unfold hex_byte. intros H. injection H as Hhi Hlo.
  pose proof (N_ascii_bounded c) as Hc. pose proof (N_ascii_bounded d) as Hd.
  assert (Hq : forall n, (n < 256)%N -> (n / 16 < 16)%N).
  { intros n Hn. apply N.Div0.div_lt_upper_bound. exact Hn. }
  assert (Hm : forall n, (n mod 16 < 16)%N) by (intros n; apply N.mod_lt; discriminate).
  apply (f_equal (fun x => base64.index_of x "0123456789abcdef")) in Hhi, Hlo.
  rewrite !hexdigit_index in Hhi, Hlo by auto.
  injection Hhi as Hhi. injection Hlo as Hlo.
  apply N2Z.inj in Hhi, Hlo.
  rewrite <- (ascii_N_embedding c), <- (ascii_N_embedding d). f_equal.
  rewrite (N.div_mod (N_of_ascii c) 16), (N.div_mod (N_of_ascii d) 16) by discriminate.
  rewrite Hhi, Hlo. reflexivity.
Qed.

Lemma hex_bytes_inj (l m : list ascii) :
  List.length l = List.length m -> hex_bytes l = hex_bytes m -> l = m.
Proof.
  revert m. induction l as [|c l IH]; intros [|d m] Hlen H; try discriminate Hlen.
  - reflexivity.
  - cbn [hex_bytes] in H. unfold hex_byte in H. cbn [append] in H.
    injection H as Hhi Hlo Hrest.
    assert (Hcd : c = d) by (apply hex_byte_inj; unfold hex_byte; congruence).
    subst d. f_equal. apply IH; [|exact Hrest]. cbn in Hlen. congruence.
Qed.

Lemma map_seq_eq_inv {A} (f : nat -> A) (p q n : nat) :
  map f (seq p n) = map f (seq q n) -> forall i, i < n -> f (p + i) = f (q + i).
Proof.
  revert p q. induction n as [|n IH]; intros p q H i Hi; [lia|].
  cbn [seq map] in H. injection H as Hhead Htail.
  destruct i as [|i].
  - rewrite !Nat.add_0_r. exact Hhead.
  - rewrite !Nat.add_succ_r. apply (IH (S p) (S q) Htail i). lia.
Qed.

(** X15. When both bodies are given, the boundary of the nested
    multipart/alternative section is made of the thirty random bytes that
    follow those of the outer boundary; the two boundaries are equal exactly
    when these two runs of random bytes are equal, which nothing in the code
    excludes. *)
Theorem nested_boundary_equal_iff (env : Env)
    (subject body htmlBody attachmentPath : string) (to : slice) (st : State)
    (msg : string) :
  body <> "" -> htmlBody <> "" ->
  fst (createEmailMessage env subject body htmlBody attachmentPath to st) = inr msg ->
  let boundary := boundary_at env (rand_read st) in
  let altBoundary := boundary_at env (rand_read st + 30) in
  (exists epilogue attachments,
      msg = message_of (emailConfig st) subject (elems to) boundary
              (Multipart [] "alternative" altBoundary
                 [text_part body; html_part htmlBody] epilogue :: attachments))
  /\ (altBoundary = boundary <->
      forall i, i < 30 ->
        rand_Reader env (rand_read st + 30 + i) = rand_Reader env (rand_read st + i)).
Proof.
  intros Hb Hh Hmsg boundary altBoundary. split.
  - destruct (createEmailMessage_run env subject body htmlBody attachmentPath to st)
      as (Hr & _ & _).
    rewrite Hr in Hmsg. fold boundary altBoundary in Hmsg.
    unfold built, body_parts in Hmsg.
    rewrite (nonempty_true _ Hb), (nonempty_true _ Hh) in Hmsg. cbn [andb] in Hmsg.
    destruct (nonempty attachmentPath && negb _); [discriminate|].
    destruct (nonempty attachmentPath).
    + destruct (os_ReadFile env attachmentPath) as [e|data]; [discriminate|].
      injection Hmsg as <-. eexists. eexists. reflexivity.
    + injection Hmsg as <-. eexists. exists []. reflexivity.
  - subst boundary altBoundary. unfold boundary_at. split.
    + intros H. apply hex_bytes_inj in H; [|rewrite !length_map, !length_seq; reflexivity].
      apply map_seq_eq_inv. exact H.
    + intros H. f_equal. apply map_seq_ext. exact H.
Qed.

Lemma nested_boundary_equal_iff_witness :
  (exists epilogue attachments,
      message_of sample_config "Hello" ["a@x.com"] (boundary_at sample_env 0)
        [alternative_part (boundary_at sample_env 30) "Hi there" "<b>Hi</b>" (Some "")]
      = message_of (emailConfig sample_state) "Hello" (elems (slice_of ["a@x.com"]))
          (boundary_at sample_env (rand_read sample_state))
          (Multipart [] "alternative" (boundary_at sample_env (rand_read sample_state + 30))
             [text_part "Hi there"; html_part "<b>Hi</b>"] epilogue :: attachments))
  /\ (boundary_at sample_env (rand_read sample_state + 30)
      = boundary_at sample_env (rand_read sample_state) <->
      forall i, i < 30 ->
        rand_Reader sample_env (rand_read sample_state + 30 + i)
        = rand_Reader sample_env (rand_read sample_state + i)).
Proof.
  apply (nested_boundary_equal_iff sample_env "Hello" "Hi there" "<b>Hi</b>" ""
           (slice_of ["a@x.com"]) sample_state).
  - discriminate.
  - discriminate.
  - vm_compute. reflexivity.
Defined.

(** X16. A build whose attachment path is refused reads no random byte. Any
    other build reads thirty random bytes for its outer boundary, and thirty
    more exactly when both bodies are non-empty, also when it then fails on
    the bodies or on the file; so the boundaries of the next build are made of
    later bytes. *)
Theorem build_random_bytes (env : Env)
    (subject body htmlBody attachmentPath : string) (to : slice) (st : State) :
  let r := createEmailMessage env subject body htmlBody attachmentPath to st in
  let allowed :=
    attachmentPath = "" \/
    exists rest, attachmentPath = (AttachmentPathPrefix (emailConfig st) ++ "/") ++ rest in
  (~ allowed -> rand_read (snd r) = rand_read st)
  /\ (allowed -> body <> "" -> htmlBody <> "" -> rand_read (snd r) = rand_read st + 60)
  /\ (allowed -> body = "" \/ htmlBody = "" -> rand_read (snd r) = rand_read st + 30).
Proof.
  intros r allowed. subst r allowed.
  rewrite createEmailMessage_rand.
  destruct (path_allowed (emailConfig st) attachmentPath) eqn:Hok.
  - apply path_allowed_iff in Hok. repeat split.
    + intros H. destruct (H Hok).
    + intros _ Hb Hh. rewrite (nonempty_true _ Hb), (nonempty_true _ Hh). reflexivity.
    + intros _ [->| ->]; cbn [nonempty String.eqb negb andb]; rewrite ?andb_false_r;
        reflexivity.
  - assert (Hno : ~ (attachmentPath = "" \/
                     exists rest,
                       attachmentPath = (AttachmentPathPrefix (emailConfig st) ++ "/") ++ rest)).
    { intros H. apply path_allowed_iff in H. congruence. }
    repeat split.
    + intros _. lia.
    + intros H. destruct (Hno H).
    + intros H. destruct (Hno H).
Qed.

Lemma build_random_bytes_witness :
  rand_read (snd (createEmailMessage sample_env "Hello" "" "" "storage/missing.bin"
                    (slice_of ["a@x.com"]) sample_state))
  = rand_read sample_state + 30.
Proof.
  apply (proj2 (proj2 (build_random_bytes sample_env "Hello" "" "" "storage/missing.bin"
                         (slice_of ["a@x.com"]) sample_state))).
  - right. exists "missing.bin". reflexivity.
  - left. reflexivity.
Defined.

(** ** Framing of the message *)




